(** * Proof exporter: [scripts/export_proofs.py]

    A shallow embedding of the script that turns a circuit's binary
    [target/proof] and [target/public_inputs] artifacts into a JSON document
    of hex strings, together with the properties its specification states.

    Conventions of the embedding:
    - [bytes] values are lists of [Byte.byte];
    - a [str] value is the Rocq string of its bytes in UTF-8, as the
      operating system passes it on the command line and takes it in file
      names (bytes that are not valid UTF-8 are the lone surrogates that
      Python's [surrogateescape] makes of them); [json.dumps] is the one place
      where the code points matter;
    - a [Path] is what [pathlib] keeps of a POSIX path: its anchor and its
      components;
    - the file system is a finite map from paths to nodes (regular files and
      directories).  It has no links, no permissions and no limits on sizes
      or name lengths, a write is done at once or not at all, and paths are
      compared component-wise, so that [a/../b] and [b] are two entries;
    - effectful code runs in a state-and-exception monad over a [world]
      made of the file system, the standard output and the trace of the file
      system calls issued so far. *)

From Stdlib Require Import Strings.Byte Strings.Ascii NArith.
From stdpp Require Import base numbers list strings gmap pretty.

(** ** Byte strings and their hexadecimal form *)

Abbreviation bytes := (list byte).

(** [FIELD_ELEMENT_SIZE = 32] *)
Definition FIELD_ELEMENT_SIZE : nat := 32.

(** The digit table used by [bytes.hex]. *)
Definition hexdigits : string := "0123456789abcdef".

Definition hexdigit (n : N) : ascii :=
  match String.get (N.to_nat n) hexdigits with
  | Some c => c
  | None => "0"%char
  end.

(** [data.hex()]: the high nibble then the low nibble of every byte. *)
Fixpoint bytes_hex (data : bytes) : string :=
  match data with
  | [] => ""
  | b :: rest =>
      String (hexdigit (N.shiftr (Byte.to_N b) 4))
        (String (hexdigit (N.land (Byte.to_N b) 15)) (bytes_hex rest))
  end.

(** [def to_hex(data): return "0x" + data.hex()] *)
Definition to_hex (data : bytes) : string := "0x" +:+ bytes_hex data.

(** The decoder the specification pairs with [to_hex]: it is not part of the
    script.  It reads a [0x] prefix and then pairs of hexadecimal digits, in
    either case, as [bytes.fromhex] does. *)
Definition hex_value (c : ascii) : option N :=
  let n := N_of_ascii c in
  if (48 <=? n)%N && (n <=? 57)%N then Some (n - 48)%N
  else if (97 <=? n)%N && (n <=? 102)%N then Some (n - 87)%N
  else if (65 <=? n)%N && (n <=? 70)%N then Some (n - 55)%N
  else None.

Fixpoint hex_decode_digits (s : string) : option bytes :=
  match s with
  | EmptyString => Some []
  | String hi (String lo rest) =>
      match hex_value hi, hex_value lo, hex_decode_digits rest with
      | Some h, Some l, Some tl =>
          match Byte.of_N (16 * h + l)%N with
          | Some b => Some (b :: tl)
          | None => None
          end
      | _, _, _ => None
      end
  | String _ EmptyString => None
  end.

Definition hex_decode (s : string) : option bytes :=
  match s with
  | String "0" (String "x" digits) => hex_decode_digits digits
  | _ => None
  end.

(** A lowercase hexadecimal digit: [0-9] or [a-f]. *)
Definition is_lower_hex (c : ascii) : bool :=
  let n := N_of_ascii c in
  ((48 <=? n)%N && (n <=? 57)%N) || ((97 <=? n)%N && (n <=? 102)%N).

Fixpoint string_forallb (p : ascii -> bool) (s : string) : bool :=
  match s with
  | EmptyString => true
  | String c rest => p c && string_forallb p rest
  end.

(** ** Slices and ranges *)

(** [data[lo:hi]] for [0 <= lo <= hi]; the slice is clipped to the data. *)
Definition slice {A : Type} (data : list A) (lo hi : nat) : list A :=
  take (hi - lo) (drop lo data).

(** [range(start, stop, step)] for a positive [step]. *)
Definition py_range (start stop step : nat) : list nat :=
  (fun k => start + k * step) <$> seq 0 ((stop - start + (step - 1)) `div` step).

(** ** Paths *)

(** A pure POSIX path as [pathlib] stores it: the anchor ([""], ["/"] or
    ["//"]) and the components. *)
Abbreviation Path := (string * list string)%type.

Fixpoint split_slash (s : string) : list string :=
  match s with
  | EmptyString => [""]
  | String "/" rest => "" :: split_slash rest
  | String c rest =>
      match split_slash rest with
      | [] => [String c ""]
      | x :: xs => String c x :: xs
      end
  end.

(** [posixpath.splitroot]: one leading slash or three and more make the root
    ["/"], exactly two make it ["//"]. *)
Definition splitroot (p : string) : string * string :=
  match p with
  | String "/" (String "/" (String "/" rest)) => ("/", String "/" (String "/" rest))
  | String "/" (String "/" rest) => ("//", rest)
  | String "/" rest => ("/", rest)
  | _ => ("", p)
  end.

(** The components of a relative part: empty ones and ["."] are dropped. *)
Definition path_components (rel : string) : list string :=
  filter (fun x => x ≠ "" ∧ x ≠ ".") (split_slash rel).

(** [Path(s)] *)
Definition parse_path (s : string) : Path :=
  let '(root, rel) := splitroot s in (root, path_components rel).

(** [p / key]: an absolute [key] replaces [p], a relative one extends it. *)
Definition path_div (p : Path) (key : string) : Path :=
  if decide ((splitroot key).1 = "") then (p.1, p.2 ++ path_components key)
  else parse_path key.

Declare Scope path_scope.
Delimit Scope path_scope with path.
Infix "/" := path_div : path_scope.

(** [str(p)] *)
Definition path_str (p : Path) : string :=
  match p.1, p.2 with
  | "", [] => "."
  | root, tail => root +:+ String.concat "/" tail
  end.

(** [p.parent] *)
Definition parent (p : Path) : Path := (p.1, removelast p.2).

(** ** The file system *)

Inductive node :=
  | File (content : bytes)
  | Dir.

Global Instance byte_eq_dec : EqDecision byte := Byte.byte_eq_dec.

Global Instance node_eq_dec : EqDecision node.
Proof. solve_decision. Defined.

(** What [stat] finds at a path.  A path without components is the current
    directory or the root, which are directories.  The lookup is by the
    components as they are written: [..] is not resolved. *)
Definition stat (fs : gmap Path node) (p : Path) : option node :=
  match p.2 with
  | [] => Some Dir
  | _ => fs !! p
  end.

(** Every entry of a well-formed file system sits in a directory. *)
Definition wf_fs (fs : gmap Path node) : Prop :=
  map_Forall (λ p _, p.2 ≠ [] ∧ stat fs (parent p) = Some Dir) fs.

Global Instance wf_fs_dec (fs : gmap Path node) : Decision (wf_fs fs).
Proof. unfold wf_fs. apply _. Defined.

(** The calls the script makes to the file system, in the order it makes
    them. *)
Inductive event :=
  | EvExists (p : Path)
  | EvRead (p : Path)
  | EvWrite (p : Path) (text : string).

Record world := World {
  fs : gmap Path node;
  stdout : string;
  trace : list event
}.

(** ** Exceptions and the monad of the script *)

Inductive errno := ENOENT | EISDIR | ENOTDIR.

(** [ValueError] and [FileNotFoundError] are the two exceptions the script
    raises itself (the specification calls them MalformedInput and
    MissingArtifact); [OSError] stands for the ones raised by the file
    system calls. *)
Inductive exn :=
  | ValueError (msg : string)
  | FileNotFoundError (msg : string)
  | OSError (code : errno) (p : Path).

Inductive result (A : Type) :=
  | Ok (a : A)
  | Raise (e : exn).
Arguments Ok {A} a.
Arguments Raise {A} e.

Definition M (A : Type) : Type := world → result A * world.

Global Instance M_ret : MRet M := λ A a w, (Ok a, w).
Global Instance M_bind : MBind M := λ A B f m w,
  match m w with
  | (Ok a, w') => f a w'
  | (Raise e, w') => (Raise e, w')
  end.

Definition raise {A : Type} (e : exn) : M A := λ w, (Raise e, w).

Definition log (e : event) (w : world) : world :=
  World (fs w) (stdout w) (trace w ++ [e]).

(** [p.exists()].  The errors that [exists] lets through in Python (a name
    longer than the file system allows, a directory that may not be
    searched) have no counterpart here. *)
Definition path_exists (p : Path) : M bool := λ w,
  (Ok (match stat (fs w) p with Some _ => true | None => false end),
   log (EvExists p) w).

(** [p.read_bytes()] *)
Definition read_bytes (p : Path) : M bytes := λ w,
  match stat (fs w) p with
  | Some (File content) => (Ok content, log (EvRead p) w)
  | Some Dir => (Raise (OSError EISDIR p), log (EvRead p) w)
  | None => (Raise (OSError ENOENT p), log (EvRead p) w)
  end.

(** The bytes of a text.  A text is kept as its UTF-8 bytes, so they are
    the bytes of the string, one for each character of it. *)
Definition encode_text (text : string) : bytes := String.list_byte_of_string text.

(** [p.write_text(text)]: the file is created or replaced.  The call fails
    when the file cannot be opened for writing, and then nothing is written;
    a write that fails after the file is opened (a full disk), which would
    leave it truncated, is not modelled. *)
Definition write_text (p : Path) (text : string) : M unit := λ w,
  let w' := log (EvWrite p text) w in
  match stat (fs w) p with
  | Some Dir => (Raise (OSError EISDIR p), w')
  | _ =>
      match stat (fs w) (parent p) with
      | Some Dir =>
          (Ok (), World (<[p := File (encode_text text)]> (fs w)) (stdout w') (trace w'))
      | Some (File _) => (Raise (OSError ENOTDIR p), w')
      | None => (Raise (OSError ENOENT p), w')
      end
  end.

(** [print(text)] *)
Definition print (text : string) : M unit := λ w,
  (Ok (), World (fs w) (stdout w +:+ text +:+ "
") (trace w)).

(** ** Python values and [json.dumps] *)

(** The values the script builds: strings, lists and dictionaries.  A
    dictionary keeps its keys in insertion order. *)
#[warnings="-register-all"]
Inductive value :=
  | VStr (s : string)
  | VList (items : list value)
  | VDict (items : list (string * value)).

Abbreviation dict := (list (string * value)).

(** [d[k] = v]: an existing key keeps its place, a new one goes last. *)
Fixpoint dict_set (d : dict) (k : string) (v : value) : dict :=
  match d with
  | [] => [(k, v)]
  | (k', v') :: rest =>
      if decide (k' = k) then (k', v) :: rest else (k', v') :: dict_set rest k v
  end.

Fixpoint dict_get (d : dict) (k : string) : option value :=
  match d with
  | [] => None
  | (k', v') :: rest => if decide (k' = k) then Some v' else dict_get rest k
  end.

Definition keys (d : dict) : list string := d.*1.

(** [json.encoder.py_encode_basestring_ascii]: printable ASCII except the
    quote and the backslash stays; every other code point is escaped. *)
Definition hex2 (n : N) : string :=
  String (hexdigit (N.shiftr n 4)) (String (hexdigit (N.land n 15)) "").

(** [format(n, "04x")] for [n < 0x10000] *)
Definition hex4 (n : N) : string :=
  hex2 (N.land (N.shiftr n 8) 255) +:+ hex2 (N.land n 255).

(** The escape of an ASCII character. *)
Definition escape_char (c : ascii) : string :=
  let n := N_of_ascii c in
  if decide (n = 92)%N then "\\"
  else if decide (n = 34)%N then String "\" (String c "")
  else if decide (n = 8)%N then "\b"
  else if decide (n = 12)%N then "\f"
  else if decide (n = 10)%N then "\n"
  else if decide (n = 13)%N then "\r"
  else if decide (n = 9)%N then "\t"
  else if decide (32 ≤ n ∧ n ≤ 126)%N then String c ""
  else "\u00" +:+ hex2 n.

(** The escape of a code point above ASCII: [\uXXXX], and a surrogate pair
    from [0x10000] on. *)
Definition escape_code_point (n : N) : string :=
  if (n <? 65536)%N then "\u" +:+ hex4 n
  else
    let m := (n - 65536)%N in
    "\u" +:+ hex4 (N.lor 55296 (N.land (N.shiftr m 10) 1023))
    +:+ "\u" +:+ hex4 (N.lor 56320 (N.land m 1023)).

(** The UTF-8 sequences of two, three and four bytes and their code points.
    Overlong forms, encoded surrogates and values above [0x10FFFF] are not
    valid. *)
Definition continuation (c : ascii) : bool :=
  let n := N_of_ascii c in (128 <=? n)%N && (n <=? 191)%N.

Definition low_bits (mask : N) (c : ascii) : N := N.land (N_of_ascii c) mask.

Definition utf8_two (c1 c2 : ascii) : option N :=
  let n1 := N_of_ascii c1 in
  if (194 <=? n1)%N && (n1 <=? 223)%N && continuation c2
  then Some (N.lor (N.shiftl (low_bits 31 c1) 6) (low_bits 63 c2))
  else None.

Definition utf8_three (c1 c2 c3 : ascii) : option N :=
  let n1 := N_of_ascii c1 in
  let n2 := N_of_ascii c2 in
  if (224 <=? n1)%N && (n1 <=? 239)%N && continuation c2 && continuation c3
     && negb ((n1 =? 224)%N && (n2 <? 160)%N)
     && negb ((n1 =? 237)%N && (160 <=? n2)%N)
  then Some (N.lor (N.shiftl (low_bits 15 c1) 12)
               (N.lor (N.shiftl (low_bits 63 c2) 6) (low_bits 63 c3)))
  else None.

Definition utf8_four (c1 c2 c3 c4 : ascii) : option N :=
  let n1 := N_of_ascii c1 in
  let n2 := N_of_ascii c2 in
  if (240 <=? n1)%N && (n1 <=? 244)%N
     && continuation c2 && continuation c3 && continuation c4
     && negb ((n1 =? 240)%N && (n2 <? 144)%N)
     && negb ((n1 =? 244)%N && (144 <=? n2)%N)
  then Some (N.lor (N.shiftl (low_bits 7 c1) 18)
               (N.lor (N.shiftl (low_bits 63 c2) 12)
                  (N.lor (N.shiftl (low_bits 63 c3) 6) (low_bits 63 c4))))
  else None.

(** A byte that starts no valid sequence stands for the lone surrogate
    [0xDC00 + byte]. *)
Definition escape_stray (c : ascii) : string :=
  escape_code_point (56320 + N_of_ascii c)%N.

Fixpoint escape (s : string) : string :=
  match s with
  | EmptyString => ""
  | String c1 r1 =>
      if (N_of_ascii c1 <? 128)%N then escape_char c1 +:+ escape r1
      else
        match r1 with
        | String c2 r2 =>
            match utf8_two c1 c2 with
            | Some n => escape_code_point n +:+ escape r2
            | None =>
                match r2 with
                | String c3 r3 =>
                    match utf8_three c1 c2 c3 with
                    | Some n => escape_code_point n +:+ escape r3
                    | None =>
                        match r3 with
                        | String c4 r4 =>
                            match utf8_four c1 c2 c3 c4 with
                            | Some n => escape_code_point n +:+ escape r4
                            | None => escape_stray c1 +:+ escape r1
                            end
                        | EmptyString => escape_stray c1 +:+ escape r1
                        end
                    end
                | EmptyString => escape_stray c1 +:+ escape r1
                end
            end
        | EmptyString => escape_stray c1 +:+ escape r1
        end
  end.

Definition double_quote : string := String (ascii_of_N 34) "".

Definition encode_basestring_ascii (s : string) : string :=
  double_quote +:+ escape s +:+ double_quote.

Fixpoint spaces (n : nat) : string :=
  match n with
  | O => ""
  | S k => String " " (spaces k)
  end.

Definition newline_indent (level : nat) : string :=
  String (ascii_of_N 10) (spaces (2 * level)).

(** [json.dumps(v, indent=2)], at nesting depth [level]. *)
Fixpoint dumps (level : nat) (v : value) {struct v} : string :=
  match v with
  | VStr s => encode_basestring_ascii s
  | VList [] => "[]"
  | VList items =>
      "[" +:+ newline_indent (S level)
      +:+ String.concat ("," +:+ newline_indent (S level))
            (map (dumps (S level)) items)
      +:+ newline_indent level +:+ "]"
  | VDict [] => "{}"
  | VDict items =>
      "{" +:+ newline_indent (S level)
      +:+ String.concat ("," +:+ newline_indent (S level))
            (map (λ kv, let '(k, x) := kv in
                        encode_basestring_ascii k +:+ ": " +:+ dumps (S level) x)
                 items)
      +:+ newline_indent level +:+ "}"
  end.

Definition json_dumps (v : value) : string := dumps 0 v.

(** ** The script *)

(** The comprehension that ends [read_public_inputs]:
    [[to_hex(data[i : i + 32]) for i in range(0, len(data), 32)]] *)
Definition hex_windows (data : bytes) : list string :=
  (λ i, to_hex (slice data i (i + FIELD_ELEMENT_SIZE)))
    <$> py_range 0 (length data) FIELD_ELEMENT_SIZE.

(** [read_public_inputs(path)] *)
Definition read_public_inputs (path : Path) : M (list string) :=
  data ← read_bytes path;
  if decide (length data `mod` FIELD_ELEMENT_SIZE ≠ 0) then
    raise (ValueError ("Public inputs file " +:+ path_str path +:+ " length "
                       +:+ pretty (length data) +:+ " is not a multiple of 32"))
  else mret (hex_windows data).

(** The record [{"proof": ..., "public_inputs": [...]}]. *)
Definition make_payload (proof_hex : string) (public_inputs_hex : list string) : dict :=
  [("proof", VStr proof_hex); ("public_inputs", VList (VStr <$> public_inputs_hex))].

(** [not proof_path.exists() or not public_inputs_path.exists()]: the second
    test is only made when the first path exists. *)
Definition artifacts_missing (proof_path public_inputs_path : Path) : M bool :=
  proof_found ← path_exists proof_path;
  if negb proof_found then mret true
  else
    public_inputs_found ← path_exists public_inputs_path;
    mret (negb public_inputs_found).

(** [export_directory(dir_path)] *)
Definition export_directory (dir_path : Path) : M dict :=
  let proof_path := (dir_path / "target" / "proof")%path in
  let public_inputs_path := (dir_path / "target" / "public_inputs")%path in
  missing ← artifacts_missing proof_path public_inputs_path;
  if (missing : bool) then
    raise (FileNotFoundError
             ("Expected proof/public_inputs in " +:+ path_str dir_path +:+ "/target"))
  else
    proof_bytes ← read_bytes proof_path;
    let proof_hex := to_hex proof_bytes in
    public_inputs_hex ← read_public_inputs public_inputs_path;
    let payload := make_payload proof_hex public_inputs_hex in
    let output_path := (dir_path / "target" / "proof.json")%path in
    _ ← write_text output_path (json_dumps (VDict payload));
    mret payload.

(** The parsed command line. *)
Record args := Args {
  circuits : list string;
  base_dir : Path
}.

Definition default_circuits : list string := ["deposit"; "transfer"; "withdraw"].

(** [parser.parse_args()] on the positional names and the optional
    [--base-dir]; [default_base_dir] is the directory
    [circuits-privacy] next to the script's own directory. *)
Definition parse_args (default_base_dir : Path) (positional : list string)
    (base_dir_option : option string) : args :=
  Args (match positional with [] => default_circuits | _ => positional end)
       (match base_dir_option with
        | Some s => parse_path s
        | None => default_base_dir
        end).

(** The loop of [main]: [results] is the dictionary built so far. *)
Fixpoint export_all (base : Path) (names : list string) (results : dict) : M dict :=
  match names with
  | [] => mret results
  | circuit :: rest =>
      let folder := (base / circuit)%path in
      payload ← export_directory folder;
      export_all base rest (dict_set results circuit (VDict payload))
  end.

(** [main()] *)
Definition main (a : args) : M unit :=
  results ← export_all (base_dir a) (circuits a) [];
  print (json_dumps (VDict results)).

(** Running the script: an exception that nobody catches ends the process
    with status 1, a normal return with status 0. *)
Definition run (a : args) (w : world) : nat * world :=
  match main a w with
  | (Ok _, w') => (0, w')
  | (Raise _, w') => (1, w')
  end.

(** ** Vocabulary of the specification *)

(** [p.name]: the last component. *)
Definition name (p : Path) : option string := last p.2.

Definition event_path (e : event) : Path :=
  match e with
  | EvExists p | EvRead p | EvWrite p _ => p
  end.

Definition is_write (e : event) : bool :=
  match e with
  | EvWrite _ _ => true
  | _ => false
  end.

Definition is_read (e : event) : bool :=
  match e with
  | EvRead _ => true
  | _ => false
  end.

(** The three paths [export_directory] works on. *)
Definition proof_path (dir_path : Path) : Path := (dir_path / "target" / "proof")%path.
Definition public_inputs_path (dir_path : Path) : Path :=
  (dir_path / "target" / "public_inputs")%path.
Definition output_path (dir_path : Path) : Path :=
  (dir_path / "target" / "proof.json")%path.

(** The paths an export may touch. *)
Definition own_paths (D : Path) : list Path :=
  [proof_path D; public_inputs_path D; output_path D].

(** The calls of one successful export, in order. *)
Definition success_events (dir_path : Path) (text : string) : list event :=
  [EvExists (proof_path dir_path); EvExists (public_inputs_path dir_path);
   EvRead (proof_path dir_path); EvRead (public_inputs_path dir_path);
   EvWrite (output_path dir_path) text].

(** [payload] is the export record of the artifacts found under [dir_path]. *)
Definition is_export_record (fs : gmap Path node) (dir_path : Path) (payload : dict) : Prop :=
  ∃ proof_bytes public_inputs_bytes,
    stat fs (proof_path dir_path) = Some (File proof_bytes)
    ∧ stat fs (public_inputs_path dir_path) = Some (File public_inputs_bytes)
    ∧ payload = make_payload (to_hex proof_bytes) (hex_windows public_inputs_bytes).

(** [fs'] differs from [fs] at most at files called [proof.json]. *)
Definition same_inputs (fs fs' : gmap Path node) : Prop :=
  ∀ p, name p ≠ Some "proof.json" → fs' !! p = fs !! p.

(** The folders of a list of circuit names, and the calls of a run in which
    each of them is exported with success, in order. *)
Definition folders (base : Path) (names : list string) : list Path :=
  (λ c, (base / c)%path) <$> names.

Definition run_events (base : Path) (names : list string) (texts : list string) : list event :=
  mjoin (zip_with success_events (folders base names) texts).

(** The key list after one more assignment [d[k] = ...]. *)
Definition add_key (ks : list string) (k : string) : list string :=
  if decide (k ∈ ks) then ks else ks ++ [k].

(** The names of a list in the order of their first occurrence. *)
Fixpoint first_occurrences (names : list string) : list string :=
  match names with
  | [] => []
  | x :: rest => x :: filter (λ y, y ≠ x) (first_occurrences rest)
  end.


(** A character that [json.dumps] copies as it is. *)
Definition is_plain (c : ascii) : bool :=
  let n := N_of_ascii c in
  (32 <=? n)%N && (n <=? 126)%N && negb (n =? 34)%N && negb (n =? 92)%N.

(** *** The texts, character by character *)

(** A string between double quotes (character 34), as it stands. *)
Definition quoted (s : string) : string := String "034" (s +:+ String "034" "").

(** A line feed (character 10) followed by the indentation of the next
    line. *)
Definition nl (indent : string) : string := String "010" indent.

(** The text of a record for a proof and public inputs in hexadecimal, when
    the line it starts on is indented by [indent]: one key per line, two
    spaces further in, and one public input per line, four spaces further
    in. *)
Definition payload_text_at (indent proof_hex : string) (public_inputs_hex : list string)
    : string :=
  "{" +:+ nl (indent +:+ "  ")
  +:+ quoted "proof" +:+ ": " +:+ quoted proof_hex
  +:+ "," +:+ nl (indent +:+ "  ")
  +:+ quoted "public_inputs" +:+ ": "
  +:+ match public_inputs_hex with
      | [] => "[]"
      | _ => "[" +:+ nl (indent +:+ "    ")
             +:+ String.concat ("," +:+ nl (indent +:+ "    "))
                   (quoted <$> public_inputs_hex)
             +:+ nl (indent +:+ "  ") +:+ "]"
      end
  +:+ nl indent +:+ "}".

(** The text of [proof.json]. *)
Definition payload_text (proof_hex : string) (public_inputs_hex : list string) : string :=
  payload_text_at "" proof_hex public_inputs_hex.

(** A key of the report: the escaped name between quotes. *)
Definition key_text (circuit : string) : string := quoted (escape circuit).

(** The text of the report for a list of names, each with the proof and the
    public inputs of its record in hexadecimal: one name per line at two
    spaces, its record behind it. *)
Definition report_text (entries : list (string * (string * list string))) : string :=
  match entries with
  | [] => "{}"
  | _ =>
      "{" +:+ nl "  "
      +:+ String.concat ("," +:+ nl "  ")
            ((λ e, key_text e.1 +:+ ": " +:+ payload_text_at "  " e.2.1 e.2.2) <$> entries)
      +:+ nl "" +:+ "}"
  end.

(** The proof and the public inputs found under a directory, in hexadecimal
    (two empty values where an artifact is not a regular file). *)
Definition artifacts_hex (fs : gmap Path node) (dir_path : Path) : string * list string :=
  match stat fs (proof_path dir_path), stat fs (public_inputs_path dir_path) with
  | Some (File proof_bytes), Some (File public_inputs_bytes) =>
      (to_hex proof_bytes, hex_windows public_inputs_bytes)
  | _, _ => ("", [])
  end.

(** The report of a run over [names] that starts in [fs]: every name once,
    in the order of the first occurrences, with the artifacts of its
    folder. *)
Definition report_entries (fs : gmap Path node) (base : Path) (names : list string)
    : list (string * (string * list string)) :=
  (λ c, (c, artifacts_hex fs (base / c)%path)) <$> first_occurrences names.

(** The text written for the artifacts of a directory. *)
Definition output_text (fs : gmap Path node) (dir_path : Path) : string :=
  payload_text (artifacts_hex fs dir_path).1 (artifacts_hex fs dir_path).2.

Definition readable_file (fs : gmap Path node) (p : Path) : Prop :=
  ∃ data, stat fs p = Some (File data).

(** The world after some more calls. *)
Definition logs (es : list event) (w : world) : world :=
  World (fs w) (stdout w) (trace w ++ es).

(** The two exceptions of the script, with their messages. *)
Definition missing_error (dir_path : Path) : exn :=
  FileNotFoundError
    ("Expected proof/public_inputs in " +:+ path_str dir_path +:+ "/target").

Definition malformed_error (path : Path) (len : nat) : exn :=
  ValueError ("Public inputs file " +:+ path_str path +:+ " length "
              +:+ pretty len +:+ " is not a multiple of 32").

(** What [export_directory] does, as a table over the nodes it finds. *)
Definition export_outcome (D : Path) (w : world) : result dict * world :=
  let pp := proof_path D in
  let pip := public_inputs_path D in
  let out := output_path D in
  match stat (fs w) pp, stat (fs w) pip with
  | None, _ => (Raise (missing_error D), logs [EvExists pp] w)
  | Some _, None => (Raise (missing_error D), logs [EvExists pp; EvExists pip] w)
  | Some Dir, Some _ =>
      (Raise (OSError EISDIR pp), logs [EvExists pp; EvExists pip; EvRead pp] w)
  | Some (File _), Some Dir =>
      (Raise (OSError EISDIR pip),
       logs [EvExists pp; EvExists pip; EvRead pp; EvRead pip] w)
  | Some (File pb), Some (File pib) =>
      if decide (length pib `mod` FIELD_ELEMENT_SIZE ≠ 0) then
        (Raise (malformed_error pip (length pib)),
         logs [EvExists pp; EvExists pip; EvRead pp; EvRead pip] w)
      else
        let payload := make_payload (to_hex pb) (hex_windows pib) in
        let text := json_dumps (VDict payload) in
        match stat (fs w) out, stat (fs w) (parent out) with
        | Some Dir, _ => (Raise (OSError EISDIR out), logs (success_events D text) w)
        | _, None => (Raise (OSError ENOENT out), logs (success_events D text) w)
        | _, Some (File _) =>
            (Raise (OSError ENOTDIR out), logs (success_events D text) w)
        | _, Some Dir =>
            (Ok payload,
             World (<[out := File (encode_text text)]> (fs w)) (stdout w)
                   (trace w ++ success_events D text))
        end
  end.


(** [fs'] has the input files of [fs] and the same directories. *)
Definition same_tree (fs fs' : gmap Path node) : Prop :=
  same_inputs fs fs' ∧ ∀ p, stat fs' p = Some Dir ↔ stat fs p = Some Dir.

(** The digits of a hex string: [s[2:]]. *)
Definition hex_digits_of (s : string) : string :=
  match s with
  | String _ (String _ digits) => digits
  | _ => ""
  end.

(** Reading a record back into the bytes of the two artifacts (a reader of
    [proof.json] would do this; it is not part of the script). *)
Definition value_bytes (v : value) : option bytes :=
  match v with
  | VStr s => hex_decode s
  | _ => None
  end.

Definition payload_bytes (payload : dict) : option (bytes * bytes) :=
  match dict_get payload "proof", dict_get payload "public_inputs" with
  | Some (VStr proof_hex), Some (VList items) =>
      match hex_decode proof_hex, mapM value_bytes items with
      | Some proof_bytes, Some windows => Some (proof_bytes, concat windows)
      | _, _ => None
      end
  | _, _ => None
  end.

(** An export that returns a record. *)
Definition exports (D : Path) (w : world) : Prop :=
  ∃ payload, (export_directory D w).1 = Ok payload.

(** ** Example file systems *)

Definition example_base : Path := ("/", ["repo"; "circuits-privacy"]).

Definition example_root : list (Path * node) :=
  [(("/", ["repo"]), Dir); (example_base, Dir)].

(** A circuit folder with the given entries under [target]. *)
Definition circuit_tree (base : Path) (c : string) (entries : list (string * node))
    : list (Path * node) :=
  ((base / c)%path, Dir) :: ((base / c / "target")%path, Dir)
  :: ((λ e, ((base / c / "target" / e.1)%path, e.2)) <$> entries).

Definition stale_output : node := File (encode_text "{}").

Definition valid_circuit (proof : bytes) : list (string * node) :=
  [("proof", File proof); ("public_inputs", File (replicate 64 x00))].

Definition malformed_circuit : list (string * node) :=
  [("proof", File [xab; xcd]); ("public_inputs", File (replicate 31 x00));
   ("proof.json", stale_output)].

Definition missing_proof_circuit : list (string * node) :=
  [("public_inputs", File (replicate 64 x00)); ("proof.json", stale_output)].

Definition directory_proof_circuit : list (string * node) :=
  [("proof", Dir); ("public_inputs", File (replicate 64 x00))].

Definition world_of (tree : list (Path * node)) : world :=
  World (list_to_map tree) "" [].

(** Three circuits with valid artifacts. *)
Definition world_valid : world :=
  world_of (example_root
            ++ circuit_tree example_base "deposit" (valid_circuit [xab; xcd])
            ++ circuit_tree example_base "transfer" (valid_circuit [x01])
            ++ circuit_tree example_base "withdraw" (valid_circuit [])).

(** The second circuit has public inputs of 31 bytes and an output left by
    an earlier run. *)
Definition world_malformed : world :=
  world_of (example_root
            ++ circuit_tree example_base "deposit" (valid_circuit [xab; xcd])
            ++ circuit_tree example_base "transfer" malformed_circuit
            ++ circuit_tree example_base "withdraw" (valid_circuit [])).

(** A circuit without [target/proof]. *)
Definition world_missing : world :=
  world_of (example_root ++ circuit_tree example_base "deposit" missing_proof_circuit).

(** A circuit whose [target/proof] is a directory. *)
Definition world_directory : world :=
  world_of (example_root ++ circuit_tree example_base "deposit" directory_proof_circuit).

(** * Supporting lemmas *)

(** *** Properties of the encoder *)

Lemma hexdigit_lower (n : N) : is_lower_hex (hexdigit n) = true.
Proof.
  unfold hexdigit.
  destruct (N.to_nat n) as [|[|[|[|[|[|[|[|[|[|[|[|[|[|[|[|k]]]]]]]]]]]]]]]];
    reflexivity.
Qed.

Lemma bytes_hex_lower (data : bytes) :
  string_forallb is_lower_hex (bytes_hex data) = true.
Proof.
  induction data as [|b rest IH]; simpl; [reflexivity|].
  rewrite !hexdigit_lower, IH. reflexivity.
Qed.

Lemma bytes_hex_length (data : bytes) :
  String.length (bytes_hex data) = (2 * length data)%nat.
Proof. induction data as [|b rest IH]; simpl; [reflexivity|]. rewrite IH. lia. Qed.

Lemma byte_hex_decode (b : byte) (rest : string) :
  hex_decode_digits
    (String (hexdigit (N.shiftr (Byte.to_N b) 4))
       (String (hexdigit (N.land (Byte.to_N b) 15)) rest))
  = match hex_decode_digits rest with
    | Some tl => Some (b :: tl)
    | None => None
    end.
Proof.
  destruct b; cbn [hex_decode_digits]; vm_compute hex_value;
    destruct (hex_decode_digits rest); reflexivity.
Qed.

Lemma bytes_hex_decode (data : bytes) :
  hex_decode_digits (bytes_hex data) = Some data.
Proof.
  induction data as [|b rest IH]; [reflexivity|].
  cbn [bytes_hex]. rewrite byte_hex_decode, IH. reflexivity.
Qed.

Lemma to_hex_unfold (data : bytes) :
  to_hex data = String "0" (String "x" (bytes_hex data)).
Proof. reflexivity. Qed.

Lemma to_hex_length (data : bytes) :
  String.length (to_hex data) = (2 * length data + 2)%nat.
Proof. rewrite to_hex_unfold. simpl. rewrite bytes_hex_length. lia. Qed.

Lemma hex_decode_to_hex (data : bytes) : hex_decode (to_hex data) = Some data.
Proof. rewrite to_hex_unfold. apply bytes_hex_decode. Qed.

(** *** Ranges and windows *)

Lemma py_range_field_elements (k : nat) :
  py_range 0 (FIELD_ELEMENT_SIZE * k) FIELD_ELEMENT_SIZE
  = (λ i, FIELD_ELEMENT_SIZE * i) <$> seq 0 k.
Proof.
  unfold py_range, FIELD_ELEMENT_SIZE.
  replace ((32 * k - 0 + (32 - 1)) `div` 32) with k.
  - apply list_fmap_ext. intros _ i _. lia.
  - apply Nat.div_unique with 31; lia.
Qed.

Lemma hex_windows_multiple (data : bytes) (k : nat) :
  length data = FIELD_ELEMENT_SIZE * k →
  hex_windows data
  = (λ i, to_hex (take FIELD_ELEMENT_SIZE (drop (FIELD_ELEMENT_SIZE * i) data)))
      <$> seq 0 k.
Proof.
  intros Hlen. unfold hex_windows. rewrite Hlen, py_range_field_elements.
  rewrite <- list_fmap_compose. apply list_fmap_ext. intros _ i _. simpl.
  unfold slice. do 2 f_equal. lia.
Qed.

Lemma concat_windows (k : nat) : ∀ data : bytes,
  length data = FIELD_ELEMENT_SIZE * k →
  concat ((λ i, take FIELD_ELEMENT_SIZE (drop (FIELD_ELEMENT_SIZE * i) data))
            <$> seq 0 k) = data.
Proof.
  induction k as [|k IH]; intros data Hlen.
  - destruct data; [reflexivity | simpl in Hlen; lia].
  - change (seq 0 (S k)) with (0 :: seq 1 k). rewrite fmap_cons.
    rewrite <- fmap_S_seq, <- list_fmap_compose. cbn [concat].
    etrans; [|apply (take_drop FIELD_ELEMENT_SIZE data)]. f_equal.
    etrans; [|apply (IH (drop FIELD_ELEMENT_SIZE data))].
    + f_equal. apply list_fmap_ext. intros _ i _. unfold compose.
      rewrite drop_drop. do 2 f_equal. unfold FIELD_ELEMENT_SIZE. lia.
    + rewrite length_drop. unfold FIELD_ELEMENT_SIZE in *. lia.
Qed.

Lemma mapM_hex_decode (ws : list bytes) :
  mapM hex_decode (to_hex <$> ws) = Some ws.
Proof.
  apply mapM_Some. induction ws as [|x ws IH]; constructor; [|exact IH].
  apply hex_decode_to_hex.
Qed.

(** *** Paths of a circuit directory *)

Lemma proof_path_eq (D : Path) :
  proof_path D = (D.1, (D.2 ++ ["target"]) ++ ["proof"]).
Proof. reflexivity. Qed.

Lemma public_inputs_path_eq (D : Path) :
  public_inputs_path D = (D.1, (D.2 ++ ["target"]) ++ ["public_inputs"]).
Proof. reflexivity. Qed.

Lemma output_path_eq (D : Path) :
  output_path D = (D.1, (D.2 ++ ["target"]) ++ ["proof.json"]).
Proof. reflexivity. Qed.

Lemma name_proof_path (D : Path) : name (proof_path D) = Some "proof".
Proof. rewrite proof_path_eq. apply last_snoc. Qed.

Lemma name_public_inputs_path (D : Path) :
  name (public_inputs_path D) = Some "public_inputs".
Proof. rewrite public_inputs_path_eq. apply last_snoc. Qed.

Lemma name_output_path (D : Path) : name (output_path D) = Some "proof.json".
Proof. rewrite output_path_eq. apply last_snoc. Qed.

Lemma output_path_inj (D D' : Path) : output_path D = output_path D' → D = D'.
Proof.
  rewrite !output_path_eq. destruct D as [a l], D' as [a' l']. cbn [fst snd].
  intros [= -> H]. by apply app_inj_tail in H as [[-> _]%app_inj_tail _].
Qed.

Lemma parent_output_path (D : Path) : parent (output_path D) = (D / "target")%path.
Proof.
  rewrite output_path_eq. unfold parent. cbn [fst snd].
  by rewrite removelast_last.
Qed.

Lemma stat_named (fs : gmap Path node) (p : Path) (s : string) :
  name p = Some s → stat fs p = fs !! p.
Proof. unfold name, stat. destruct p as [root [|x l]]; [done|reflexivity]. Qed.

Lemma stat_insert_ne (fs : gmap Path node) (p q : Path) (n : node) :
  p ≠ q → stat (<[p := n]> fs) q = stat fs q.
Proof.
  intros Hne. unfold stat. destruct (q.2); [reflexivity|].
  by rewrite lookup_insert_ne.
Qed.

Lemma stat_insert_eq (fs : gmap Path node) (p : Path) (s : string) (n : node) :
  name p = Some s → stat (<[p := n]> fs) p = Some n.
Proof. intros Hn. rewrite (stat_named _ _ _ Hn). apply lookup_insert_eq. Qed.

(** *** Running the monadic code *)

Lemma bind_eq {A B : Type} (m : M A) (f : A → M B) (w : world) :
  (m ≫= f) w = match m w with
               | (Ok a, w') => f a w'
               | (Raise e, w') => (Raise e, w')
               end.
Proof. reflexivity. Qed.

Lemma logs_logs es1 es2 w : logs es2 (logs es1 w) = logs (es1 ++ es2) w.
Proof. unfold logs. simpl. by rewrite app_assoc. Qed.

Lemma log_logs e w : log e w = logs [e] w.
Proof. reflexivity. Qed.

Lemma artifacts_missing_eq (pp pip : Path) (w : world) :
  artifacts_missing pp pip w
  = match stat (fs w) pp with
    | None => (Ok true, logs [EvExists pp] w)
    | Some _ =>
        (Ok (match stat (fs w) pip with Some _ => false | None => true end),
         logs [EvExists pp; EvExists pip] w)
    end.
Proof.
  unfold artifacts_missing. rewrite bind_eq. unfold path_exists at 1.
  destruct (stat (fs w) pp); cbn [negb]; [|reflexivity].
  rewrite bind_eq. unfold path_exists. cbn [fs log].
  rewrite !log_logs, logs_logs.
  destruct (stat (fs w) pip); reflexivity.
Qed.

Lemma read_bytes_eq (p : Path) (w : world) :
  read_bytes p w
  = (match stat (fs w) p with
     | Some (File content) => Ok content
     | Some Dir => Raise (OSError EISDIR p)
     | None => Raise (OSError ENOENT p)
     end, logs [EvRead p] w).
Proof. unfold read_bytes. by repeat case_match. Qed.

Lemma read_public_inputs_eq (path : Path) (w : world) :
  read_public_inputs path w
  = (match stat (fs w) path with
     | Some (File data) =>
         if decide (length data `mod` FIELD_ELEMENT_SIZE ≠ 0)
         then Raise (malformed_error path (length data))
         else Ok (hex_windows data)
     | Some Dir => Raise (OSError EISDIR path)
     | None => Raise (OSError ENOENT path)
     end, logs [EvRead path] w).
Proof.
  unfold read_public_inputs. rewrite bind_eq, read_bytes_eq.
  destruct (stat (fs w) path) as [[data|]|]; try reflexivity.
  by destruct (decide _).
Qed.

Lemma export_directory_outcome (D : Path) (w : world) :
  export_directory D w = export_outcome D w.
Proof.
  unfold export_directory, export_outcome.
  fold (proof_path D) (public_inputs_path D) (output_path D).
  rewrite bind_eq, artifacts_missing_eq.
  destruct (stat (fs w) (proof_path D)) as [n1|] eqn:Hpp; [|reflexivity].
  destruct (stat (fs w) (public_inputs_path D)) as [n2|] eqn:Hpip; [|by destruct n1].
  rewrite bind_eq, read_bytes_eq. cbn [logs fs]. rewrite Hpp.
  destruct n1 as [pb|]; [|by rewrite logs_logs].
  rewrite bind_eq, read_public_inputs_eq. cbn [logs fs]. rewrite Hpip.
  destruct n2 as [pib|]; [|by rewrite !logs_logs].
  destruct (decide _); [by rewrite !logs_logs|].
  rewrite bind_eq, !logs_logs. unfold write_text. cbn [logs fs app].
  destruct (stat (fs w) (output_path D)) as [[|]|];
    destruct (stat (fs w) (parent (output_path D))) as [[|]|];
    unfold log, logs, success_events; cbn [fs stdout trace];
    rewrite <- ?app_assoc; reflexivity.
Qed.

(** *** Consequences of the table *)

Lemma success_events_own (D : Path) (text : string) :
  Forall (λ ev, event_path ev ∈ own_paths D) (success_events D text).
Proof. unfold success_events, own_paths. repeat constructor; set_solver. Qed.

Lemma export_directory_raise (D : Path) (w w' : world) (e : exn) :
  export_directory D w = (Raise e, w') →
  ∃ t, w' = logs t w ∧ Forall (λ ev, event_path ev ∈ own_paths D) t.
Proof.
  rewrite export_directory_outcome. unfold export_outcome.
  pose proof (success_events_own D) as Hown.
  intros H. repeat case_match; simplify_eq; eexists; (split; [reflexivity|]);
    try apply Hown; unfold own_paths; repeat constructor; set_solver.
Qed.

Lemma export_directory_ok_inv (D : Path) (w w' : world) (payload : dict) :
  export_directory D w = (Ok payload, w') →
  ∃ pb pib,
    stat (fs w) (proof_path D) = Some (File pb)
    ∧ stat (fs w) (public_inputs_path D) = Some (File pib)
    ∧ length pib `mod` FIELD_ELEMENT_SIZE = 0
    ∧ stat (fs w) (output_path D) ≠ Some Dir
    ∧ stat (fs w) (parent (output_path D)) = Some Dir
    ∧ payload = make_payload (to_hex pb) (hex_windows pib)
    ∧ w' = World (<[output_path D := File (encode_text (json_dumps (VDict payload)))]> (fs w))
                 (stdout w)
                 (trace w ++ success_events D (json_dumps (VDict payload))).
Proof.
  rewrite export_directory_outcome. unfold export_outcome.
  intros H. repeat case_match; simplify_eq.
  all: eexists _, _; split_and!; try reflexivity; try done; lia.
Qed.

Lemma export_directory_ok (D : Path) (w : world) (pb pib : bytes) :
  stat (fs w) (proof_path D) = Some (File pb) →
  stat (fs w) (public_inputs_path D) = Some (File pib) →
  length pib `mod` FIELD_ELEMENT_SIZE = 0 →
  stat (fs w) (output_path D) ≠ Some Dir →
  stat (fs w) (parent (output_path D)) = Some Dir →
  let payload := make_payload (to_hex pb) (hex_windows pib) in
  export_directory D w
  = (Ok payload,
     World (<[output_path D := File (encode_text (json_dumps (VDict payload)))]> (fs w))
           (stdout w)
           (trace w ++ success_events D (json_dumps (VDict payload)))).
Proof.
  intros Hpp Hpip Hlen Hout Hparent payload.
  rewrite export_directory_outcome. unfold export_outcome.
  rewrite Hpp, Hpip, Hparent. destruct (decide _) as [Hne|_]; [lia|].
  by destruct (stat (fs w) (output_path D)) as [[|]|].
Qed.

Lemma export_directory_fs (D : Path) (w : world) :
  fs (export_directory D w).2 = fs w
  ∨ ∃ payload,
      (export_directory D w).1 = Ok payload
      ∧ fs (export_directory D w).2
        = <[output_path D := File (encode_text (json_dumps (VDict payload)))]> (fs w).
Proof.
  destruct (export_directory D w) as [[payload|e] w'] eqn:H.
  - right. exists payload. split; [reflexivity|].
    apply export_directory_ok_inv in H as (pb & pib & _ & _ & _ & _ & _ & _ & ->).
    reflexivity.
  - left. apply export_directory_raise in H as (t & -> & _). reflexivity.
Qed.

(** *** Dictionaries *)

Lemma keys_dict_set (d : dict) (k : string) (v : value) :
  keys (dict_set d k v) = add_key (keys d) k.
Proof.
  unfold keys, add_key. induction d as [|[k' v'] d IH]; [reflexivity|].
  cbn [dict_set fmap list_fmap fst]. destruct (decide (k' = k)) as [->|Hne].
  - rewrite decide_True; [reflexivity | by apply elem_of_cons; left].
  - cbn [fmap list_fmap fst]. fold (fmap (M:=list) (@fst string value)).
    rewrite IH. destruct (decide (k ∈ d.*1)) as [Hin|Hnin].
    + rewrite decide_True; [reflexivity | by apply elem_of_cons; right].
    + rewrite decide_False; [reflexivity|].
      intros [?|?]%elem_of_cons; [by apply Hne | by apply Hnin].
Qed.

Lemma dict_get_set_eq (d : dict) (k : string) (v : value) :
  dict_get (dict_set d k v) k = Some v.
Proof.
  induction d as [|[k' v'] d IH]; cbn [dict_set dict_get].
  - by rewrite decide_True.
  - destruct (decide (k' = k)) as [->|Hne]; cbn [dict_get].
    + by rewrite decide_True.
    + by rewrite decide_False.
Qed.

Lemma dict_get_set_ne (d : dict) (k k' : string) (v : value) :
  k ≠ k' → dict_get (dict_set d k v) k' = dict_get d k'.
Proof.
  intros Hne. induction d as [|[k0 v0] d IH]; cbn [dict_set dict_get].
  - by rewrite decide_False.
  - destruct (decide (k0 = k)) as [->|Hne0]; cbn [dict_get].
    + by rewrite !decide_False.
    + destruct (decide (k0 = k')); [reflexivity | exact IH].
Qed.

Lemma add_key_NoDup (ks : list string) (k : string) :
  NoDup ks → NoDup (add_key ks k).
Proof.
  intros Hnd. unfold add_key. destruct (decide (k ∈ ks)); [exact Hnd|].
  apply NoDup_app. split_and!; [exact Hnd | | apply NoDup_singleton].
  intros x Hx ->%list_elem_of_singleton. by apply n.
Qed.

Lemma foldl_add_key_NoDup (names ks : list string) :
  NoDup ks → NoDup (foldl add_key ks names).
Proof.
  revert ks. induction names as [|x names IH]; intros ks Hnd; [exact Hnd|].
  apply IH, add_key_NoDup, Hnd.
Qed.

Lemma foldl_add_key_first (names ks : list string) :
  foldl add_key ks names = ks ++ filter (λ y, y ∉ ks) (first_occurrences names).
Proof.
  revert ks. induction names as [|x names IH]; intros ks.
  - cbn. by rewrite app_nil_r.
  - cbn [foldl first_occurrences]. rewrite IH. unfold add_key.
    rewrite filter_cons. destruct (decide (x ∈ ks)) as [Hin|Hnin].
    + rewrite decide_False by (intros Hn; by apply Hn). f_equal.
      rewrite list_filter_filter. apply list_filter_iff. intros y. split.
      * intros Hy. split; [exact Hy|]. intros ->. by apply Hy.
      * by intros [Hy _].
    + rewrite decide_True by exact Hnin. rewrite <- app_assoc. cbn [app].
      do 2 f_equal. rewrite list_filter_filter. apply list_filter_iff.
      intros y. rewrite not_elem_of_app, list_elem_of_singleton. tauto.
Qed.

Lemma filter_all {A : Type} (P : A → Prop) `{!∀ x, Decision (P x)} (l : list A) :
  Forall P l → filter P l = l.
Proof.
  induction 1 as [|x l Hx _ IH]; [reflexivity|].
  by rewrite filter_cons_True, IH.
Qed.

Lemma filter_none {A : Type} (P : A → Prop) `{!∀ x, Decision (P x)} (l : list A) :
  Forall (λ x, ¬ P x) l → filter P l = [].
Proof.
  induction 1 as [|x l Hx _ IH]; [reflexivity|].
  by rewrite filter_cons_False.
Qed.

Lemma first_occurrences_NoDup (names : list string) :
  NoDup names → first_occurrences names = names.
Proof.
  induction 1 as [|x names Hnin Hnd IH]; [reflexivity|].
  cbn [first_occurrences]. rewrite IH. f_equal.
  apply filter_all. apply Forall_forall. intros y Hy ->. by apply Hnin.
Qed.

(** *** The loop of [main] *)

Lemma same_inputs_refl (fs : gmap Path node) : same_inputs fs fs.
Proof. by intros p _. Qed.

Lemma same_inputs_trans (fs1 fs2 fs3 : gmap Path node) :
  same_inputs fs1 fs2 → same_inputs fs2 fs3 → same_inputs fs1 fs3.
Proof. intros H12 H23 p Hp. by rewrite H23, H12. Qed.

Lemma same_inputs_stat (fs fs' : gmap Path node) (p : Path) :
  same_inputs fs fs' → name p ≠ Some "proof.json" → stat fs' p = stat fs p.
Proof. intros Hsame Hp. unfold stat. destruct (p.2) eqn:E; [reflexivity|]. by apply Hsame. Qed.

Lemma same_inputs_write (fs : gmap Path node) (D : Path) (n : node) :
  same_inputs fs (<[output_path D := n]> fs).
Proof.
  intros p Hp. apply lookup_insert_ne. intros <-. by rewrite name_output_path in Hp.
Qed.

Lemma export_directory_same_inputs (D : Path) (w : world) :
  same_inputs (fs w) (fs (export_directory D w).2).
Proof.
  destruct (export_directory_fs D w) as [->|(payload & _ & ->)];
    [apply same_inputs_refl | apply same_inputs_write].
Qed.

Lemma is_export_record_same_inputs (fs fs' : gmap Path node) (D : Path) (payload : dict) :
  same_inputs fs fs' → is_export_record fs' D payload → is_export_record fs D payload.
Proof.
  intros Hsame (pb & pib & Hpp & Hpip & ->). exists pb, pib.
  rewrite <- (same_inputs_stat fs fs'), <- (same_inputs_stat fs fs' (public_inputs_path D));
    [done | done | | done | ].
  - by rewrite name_public_inputs_path.
  - by rewrite name_proof_path.
Qed.

Lemma export_all_cons (base : Path) (c : string) (rest : list string) (acc : dict) (w : world) :
  export_all base (c :: rest) acc w
  = match export_directory (base / c)%path w with
    | (Ok payload, w1) => export_all base rest (dict_set acc c (VDict payload)) w1
    | (Raise e, w1) => (Raise e, w1)
    end.
Proof. reflexivity. Qed.

Lemma export_all_app (base : Path) (pre post : list string) :
  ∀ (acc : dict) (w : world),
  export_all base (pre ++ post) acc w
  = match export_all base pre acc w with
    | (Ok r, w1) => export_all base post r w1
    | (Raise e, w1) => (Raise e, w1)
    end.
Proof.
  induction pre as [|c pre IH]; intros acc w; [reflexivity|].
  cbn [app]. rewrite !export_all_cons.
  destruct (export_directory (base / c)%path w) as [[payload|e] w1]; [apply IH|reflexivity].
Qed.

(** Either every circuit is exported, or there is a first one that fails
    and the loop stops there. *)
Lemma export_all_cases (base : Path) (names : list string) :
  ∀ (acc : dict) (w : world),
  (∃ r w', export_all base names acc w = (Ok r, w'))
  ∨ (∃ pre c post r w1 e w2,
        names = pre ++ c :: post
        ∧ export_all base pre acc w = (Ok r, w1)
        ∧ export_directory (base / c)%path w1 = (Raise e, w2)
        ∧ export_all base names acc w = (Raise e, w2)).
Proof.
  induction names as [|c names IH]; intros acc w.
  - left. by eexists _, _.
  - rewrite export_all_cons.
    destruct (export_directory (base / c)%path w) as [[payload|e] w1] eqn:Hc.
    + destruct (IH (dict_set acc c (VDict payload)) w1)
        as [(r & w' & Hr)|(pre & c' & post & r & w2 & e & w3 & -> & Hpre & Hc' & Hall)].
      * left. by eexists _, _.
      * right. exists (c :: pre), c', post, r, w2, e, w3. split_and!; try done.
        rewrite export_all_cons, Hc. exact Hpre.
    + right. exists [], c, names, acc, w, e, w1. by split_and!.
Qed.

Lemma export_all_ok_inv (base : Path) (names : list string) :
  ∀ (acc : dict) (w : world) (r : dict) (w' : world),
  export_all base names acc w = (Ok r, w') →
  stdout w' = stdout w
  ∧ same_inputs (fs w) (fs w')
  ∧ (∀ p, p ∉ output_path <$> folders base names → fs w' !! p = fs w !! p)
  ∧ keys r = foldl add_key (keys acc) names
  ∧ (∀ c, c ∉ names → dict_get r c = dict_get acc c)
  ∧ (∀ c, c ∈ names →
       ∃ payload, dict_get r c = Some (VDict payload)
                  ∧ is_export_record (fs w) (base / c)%path payload)
  ∧ ∃ texts, length texts = length names
             ∧ trace w' = trace w ++ run_events base names texts.
Proof.
  induction names as [|c names IH]; intros acc w r w' Hall.
  - change (export_all base [] acc w) with (Ok acc, w) in Hall.
    simplify_eq. split_and!;
      [reflexivity | apply same_inputs_refl | done | reflexivity | done | |].
    + by intros c ?%elem_of_nil.
    + exists []. split; [reflexivity|]. unfold run_events. cbn. by rewrite app_nil_r.
  - rewrite export_all_cons in Hall.
    destruct (export_directory (base / c)%path w) as [[payload|e] w1] eqn:Hc; [|done].
    pose proof (export_directory_same_inputs (base / c)%path w) as Hsame1.
    rewrite Hc in Hsame1. cbn [snd] in Hsame1.
    pose proof Hc as Hinv.
    apply export_directory_ok_inv in Hinv
      as (pb & pib & Hpp & Hpip & _ & _ & _ & Hpay & Hw1).
    destruct (IH _ _ _ _ Hall) as (Hout & Hsame & Hframe & Hkeys & Hother & Hin & texts & Hlen & Htrace).
    split_and!.
    + rewrite Hout, Hw1. reflexivity.
    + by eapply same_inputs_trans.
    + intros p Hp. unfold folders in *. rewrite fmap_cons, fmap_cons in Hp.
      apply not_elem_of_cons in Hp as [Hne Hp]. rewrite (Hframe p Hp), Hw1. cbn [fs].
      by rewrite lookup_insert_ne.
    + rewrite Hkeys, keys_dict_set. reflexivity.
    + intros c' Hc'. apply not_elem_of_cons in Hc' as [Hne Hc'].
      rewrite (Hother c' Hc'). by apply dict_get_set_ne.
    + intros c' Hc'. destruct (decide (c' ∈ names)) as [Hrest|Hrest].
      * destruct (Hin c' Hrest) as (payload' & Hget & Hrec). exists payload'.
        split; [exact Hget|]. by eapply is_export_record_same_inputs.
      * apply elem_of_cons in Hc' as [->|?]; [|done]. exists payload.
        rewrite (Hother c Hrest), dict_get_set_eq. split; [reflexivity|].
        by exists pb, pib.
    + exists (json_dumps (VDict payload) :: texts). split; [cbn; by rewrite Hlen|].
      rewrite Htrace, Hw1. cbn [trace]. unfold run_events, folders.
      rewrite fmap_cons. cbn [zip_with mjoin list_join]. by rewrite <- !app_assoc.
Qed.

(** *** The text written to [proof.json] *)

Lemma append_cons (c : ascii) (s t : string) : String c s +:+ t = String c (s +:+ t).
Proof. reflexivity. Qed.

Lemma string_app_assoc (s t u : string) : (s +:+ t) +:+ u = s +:+ t +:+ u.
Proof. induction s as [|c s IH]; [reflexivity|]. rewrite !append_cons. by rewrite IH. Qed.


Lemma escape_char_plain (c : ascii) : is_plain c = true → escape_char c = String c "".
Proof. destruct c as [[] [] [] [] [] [] [] []]; intros H; try discriminate H; reflexivity. Qed.

Lemma is_plain_below_128 (c : ascii) : is_plain c = true → (N_of_ascii c <? 128)%N = true.
Proof. destruct c as [[] [] [] [] [] [] [] []]; intros H; try discriminate H; reflexivity. Qed.

Lemma escape_ascii (c : ascii) (s : string) :
  (N_of_ascii c <? 128)%N = true → escape (String c s) = escape_char c +:+ escape s.
Proof. intros H. cbn [escape]. by rewrite H. Qed.

Lemma escape_plain (s : string) : string_forallb is_plain s = true → escape s = s.
Proof.
  induction s as [|c s IH]; [reflexivity|]. cbn [string_forallb].
  intros [Hc Hs]%andb_true_iff.
  by rewrite (escape_ascii c s (is_plain_below_128 c Hc)), (escape_char_plain c Hc), (IH Hs).
Qed.

Lemma is_lower_hex_plain (c : ascii) : is_lower_hex c = true → is_plain c = true.
Proof. destruct c as [[] [] [] [] [] [] [] []]; intros H; try discriminate H; reflexivity. Qed.


Lemma string_forallb_impl (p q : ascii → bool) (s : string) :
  (∀ c, p c = true → q c = true) →
  string_forallb p s = true → string_forallb q s = true.
Proof.
  intros Hpq. induction s as [|c s IH]; [reflexivity|]. cbn [string_forallb].
  intros [Hc Hs]%andb_true_iff. by rewrite (Hpq c Hc), (IH Hs).
Qed.

Lemma to_hex_plain (data : bytes) : string_forallb is_plain (to_hex data) = true.
Proof.
  rewrite to_hex_unfold. cbn [string_forallb].
  rewrite (string_forallb_impl _ _ _ is_lower_hex_plain (bytes_hex_lower data)).
  reflexivity.
Qed.

Lemma hex_windows_plain (data : bytes) :
  Forall (λ s, string_forallb is_plain s = true) (hex_windows data).
Proof. unfold hex_windows. apply Forall_fmap, Forall_forall. intros i _. apply to_hex_plain. Qed.

Lemma encode_key (s : string) : encode_basestring_ascii s = quoted (escape s).
Proof.
  unfold encode_basestring_ascii, quoted, double_quote.
  change (String (ascii_of_N 34) "" +:+ escape s +:+ String (ascii_of_N 34) "")
    with (String "034" ("" +:+ escape s +:+ String "034" "")).
  reflexivity.
Qed.

Lemma encode_plain (s : string) :
  string_forallb is_plain s = true → encode_basestring_ascii s = quoted s.
Proof. intros H. by rewrite encode_key, escape_plain. Qed.

Lemma dumps_plain_strings (level : nat) (l : list string) :
  Forall (λ s, string_forallb is_plain s = true) l →
  map (dumps level) (VStr <$> l) = quoted <$> l.
Proof.
  induction 1 as [|s l Hs _ IH]; [reflexivity|].
  cbn [fmap list_fmap map dumps]. rewrite (encode_plain s Hs). f_equal. exact IH.
Qed.

Lemma spaces_add (n m : nat) : spaces (n + m) = spaces n +:+ spaces m.
Proof. induction n as [|n IH]; [reflexivity|]. cbn [Nat.add spaces]. by rewrite IH. Qed.

Lemma newline_indent_nl (level : nat) : newline_indent level = nl (spaces (2 * level)).
Proof. reflexivity. Qed.

Lemma newline_indent_S (level : nat) :
  newline_indent (S level) = nl (spaces (2 * level) +:+ "  ").
Proof.
  unfold newline_indent, nl. f_equal.
  replace (2 * S level) with (2 * level + 2) by lia. by rewrite spaces_add.
Qed.

Lemma newline_indent_SS (level : nat) :
  newline_indent (S (S level)) = nl (spaces (2 * level) +:+ "    ").
Proof.
  unfold newline_indent, nl. f_equal.
  replace (2 * S (S level)) with (2 * level + 4) by lia. by rewrite spaces_add.
Qed.

(** [json.dumps] writes a record of hex strings as [payload_text_at] says. *)
Lemma dumps_payload (level : nat) (proof_hex : string) (public_inputs_hex : list string) :
  string_forallb is_plain proof_hex = true →
  Forall (λ s, string_forallb is_plain s = true) public_inputs_hex →
  dumps level (VDict (make_payload proof_hex public_inputs_hex))
  = payload_text_at (spaces (2 * level)) proof_hex public_inputs_hex.
Proof.
  intros Hp Hl. unfold make_payload, payload_text_at.
  cbn [dumps map String.concat].
  rewrite (encode_plain proof_hex Hp), (encode_plain "proof" eq_refl),
    (encode_plain "public_inputs" eq_refl).
  rewrite newline_indent_SS, newline_indent_S, newline_indent_nl.
  destruct public_inputs_hex as [|h l].
  - cbn [fmap list_fmap]. by rewrite !string_app_assoc.
  - generalize (dumps_plain_strings (S (S level)) (h :: l) Hl).
    cbn [fmap list_fmap]. intros ->. by rewrite !string_app_assoc.
Qed.

Lemma json_dumps_payload (proof_hex : string) (public_inputs_hex : list string) :
  string_forallb is_plain proof_hex = true →
  Forall (λ s, string_forallb is_plain s = true) public_inputs_hex →
  json_dumps (VDict (make_payload proof_hex public_inputs_hex))
  = payload_text proof_hex public_inputs_hex.
Proof. intros Hp Hl. apply (dumps_payload 0 _ _ Hp Hl). Qed.








(** *** The whole run *)

Lemma outcome_eq {A B : Type} (p : A * B) (r : A) : p.1 = r → p = (r, p.2).
Proof. intros <-. by destruct p. Qed.

Lemma run_ok_inv (a : args) (w w' : world) :
  run a w = (0, w') →
  ∃ results w1,
    export_all (base_dir a) (circuits a) [] w = (Ok results, w1)
    ∧ w' = World (fs w1) (stdout w1 +:+ json_dumps (VDict results) +:+ "
") (trace w1).
Proof.
  unfold run, main. rewrite bind_eq.
  destruct (export_all (base_dir a) (circuits a) [] w) as [[results|e] w1]; [|done].
  unfold print. intros [= <-]. by exists results, w1.
Qed.

Lemma foldl_add_key_nil (names : list string) :
  foldl add_key [] names = first_occurrences names.
Proof.
  rewrite foldl_add_key_first. cbn [app]. apply filter_all, Forall_forall.
  intros y _. apply not_elem_of_nil.
Qed.

Lemma run_events_writes (base : Path) (names : list string) :
  ∀ texts, length texts = length names →
  length (filter (λ ev, is_write ev = true) (run_events base names texts)) = length names.
Proof.
  unfold run_events, folders.
  induction names as [|c names IH]; intros [|text texts] Hlen; try done.
  rewrite fmap_cons. cbn [zip_with mjoin list_join]. rewrite filter_app, length_app.
  cbn [length] in *. rewrite IH by lia. reflexivity.
Qed.

Lemma run_fails (a : args) (w w' : world) (e : exn) :
  export_all (base_dir a) (circuits a) [] w = (Raise e, w') → run a w = (1, w').
Proof. intros H. unfold run, main. rewrite bind_eq, H. reflexivity. Qed.

Lemma run_succeeds (a : args) (w w' : world) (results : dict) :
  export_all (base_dir a) (circuits a) [] w = (Ok results, w') →
  run a w = (0, World (fs w') (stdout w' +:+ json_dumps (VDict results) +:+ "
") (trace w')).
Proof. intros H. unfold run, main. rewrite bind_eq, H. reflexivity. Qed.

Lemma export_all_first_failure (base : Path) (pre post : list string) (c : string)
    (w w1 w2 : world) (results : dict) (e : exn) :
  export_all base pre [] w = (Ok results, w1) →
  export_directory (base / c)%path w1 = (Raise e, w2) →
  export_all base (pre ++ c :: post) [] w = (Raise e, w2).
Proof. intros Hpre Hc. by rewrite export_all_app, Hpre, export_all_cons, Hc. Qed.

(** *** Exports do not disturb each other *)

Lemma same_tree_refl (fs : gmap Path node) : same_tree fs fs.
Proof. split; [apply same_inputs_refl | done]. Qed.

Lemma same_tree_trans (fs1 fs2 fs3 : gmap Path node) :
  same_tree fs1 fs2 → same_tree fs2 fs3 → same_tree fs1 fs3.
Proof.
  intros [H12 D12] [H23 D23]. split; [by eapply same_inputs_trans|].
  intros p. by rewrite D23, D12.
Qed.

Lemma name_target (D : Path) : name (D / "target")%path = Some "target".
Proof. change (D / "target")%path with (D.1, D.2 ++ ["target"]). apply last_snoc. Qed.

Lemma export_directory_same_tree (D : Path) (w : world) :
  same_tree (fs w) (fs (export_directory D w).2).
Proof.
  split; [apply export_directory_same_inputs|]. intros p.
  destruct (export_directory D w) as [[payload|e] w'] eqn:Hrun; cbn [snd].
  - apply export_directory_ok_inv in Hrun
      as (pb & pib & _ & _ & _ & Hout & _ & _ & ->). cbn [fs].
    destruct (decide (p = output_path D)) as [->|Hne].
    + erewrite stat_insert_eq by apply name_output_path. split; [done|].
      intros Hdir. by rewrite Hdir in Hout.
    + by rewrite stat_insert_ne.
  - apply export_directory_raise in Hrun as (t & -> & _). reflexivity.
Qed.

(** The result of an export depends on the input files and on which paths
    are directories, and on nothing else. *)
Lemma export_result_same_tree (D : Path) (w w2 : world) :
  same_tree (fs w) (fs w2) →
  (export_directory D w2).1 = (export_directory D w).1.
Proof.
  intros [Hsame Hdirs]. rewrite !export_directory_outcome. unfold export_outcome.
  rewrite (same_inputs_stat (fs w) (fs w2) (proof_path D) Hsame)
    by (by rewrite name_proof_path).
  rewrite (same_inputs_stat (fs w) (fs w2) (public_inputs_path D) Hsame)
    by (by rewrite name_public_inputs_path).
  rewrite (same_inputs_stat (fs w) (fs w2) (parent (output_path D)) Hsame)
    by (by rewrite parent_output_path, name_target).
  destruct (stat (fs w) (proof_path D)) as [[pb|]|],
           (stat (fs w) (public_inputs_path D)) as [[pib|]|]; try done.
  destruct (decide _); [done|].
  pose proof (Hdirs (output_path D)) as Hout.
  destruct (stat (fs w2) (output_path D)) as [[c2|]|],
           (stat (fs w) (output_path D)) as [[c|]|];
    try (destruct Hout as [H1 H2];
         first [ by specialize (H1 eq_refl) | by specialize (H2 eq_refl) ]);
    by destruct (stat (fs w) (parent (output_path D))) as [[|]|].
Qed.

Lemma export_all_same_tree (base : Path) (names : list string) :
  ∀ (acc : dict) (w : world), same_tree (fs w) (fs (export_all base names acc w).2).
Proof.
  induction names as [|c names IH]; intros acc w; [apply same_tree_refl|].
  rewrite export_all_cons. pose proof (export_directory_same_tree (base / c)%path w) as Hc.
  destruct (export_directory (base / c)%path w) as [[payload|e] w1]; [|exact Hc].
  eapply same_tree_trans; [exact Hc | apply IH].
Qed.

Lemma export_all_succeeds_iff (base : Path) (names : list string) :
  ∀ (acc : dict) (w : world),
  (∃ r w', export_all base names acc w = (Ok r, w'))
  ↔ Forall (λ c, exports (base / c)%path w) names.
Proof.
  induction names as [|c names IH]; intros acc w.
  - split; [by constructor | intros _; by eexists _, _].
  - rewrite export_all_cons, Forall_cons. unfold exports at 1.
    pose proof (export_directory_same_tree (base / c)%path w) as Hc.
    destruct (export_directory (base / c)%path w) as [[payload|e] w1]; cbn [fst snd] in *.
    + rewrite IH. split.
      * intros Hall. split; [by eexists|]. eapply Forall_impl; [exact Hall|].
        intros c' [payload' Hc']. exists payload'.
        by rewrite <- (export_result_same_tree _ w w1 Hc).
      * intros [_ Hall]. eapply Forall_impl; [exact Hall|].
        intros c' [payload' Hc']. exists payload'.
        by rewrite (export_result_same_tree _ w w1 Hc).
    + split; [by intros (r & w' & [=]) | by intros [[payload [=]] _]].
Qed.

(** *** The report and the files of a run *)

Lemma first_occurrences_elem (names : list string) (c : string) :
  c ∈ first_occurrences names ↔ c ∈ names.
Proof.
  induction names as [|x names IH]; [done|].
  cbn [first_occurrences]. rewrite !elem_of_cons, list_elem_of_filter, IH.
  destruct (decide (c = x)) as [->|Hne]; [split; by left|].
  split; [intros [?|[_ ?]]; [done | by right] | intros [?|?]; [done | by right]].
Qed.

Lemma NoDup_first_occurrences (names : list string) : NoDup (first_occurrences names).
Proof. rewrite <- foldl_add_key_nil. apply foldl_add_key_NoDup, NoDup_nil_2. Qed.

(** A dictionary is given by its keys and what is found under each. *)
Lemma dict_of_keys (d : dict) (f : string → value) :
  NoDup (keys d) →
  (∀ k, k ∈ keys d → dict_get d k = Some (f k)) →
  d = (λ k, (k, f k)) <$> keys d.
Proof.
  unfold keys. induction d as [|[k0 v0] d IH]; intros Hnd Hget; [reflexivity|].
  cbn [fmap list_fmap fst] in *. apply NoDup_cons in Hnd as [Hnin Hnd].
  f_equal.
  - specialize (Hget k0 (list_elem_of_here _ _)). cbn [dict_get] in Hget.
    rewrite decide_True in Hget by done. by injection Hget as ->.
  - apply IH; [exact Hnd|]. intros k Hk.
    specialize (Hget k (list_elem_of_further _ _ _ Hk)). cbn [dict_get] in Hget.
    rewrite decide_False in Hget; [exact Hget|]. intros ->. by apply Hnin.
Qed.

Lemma is_export_record_hex (fs : gmap Path node) (D : Path) (payload : dict) :
  is_export_record fs D payload →
  payload = make_payload (artifacts_hex fs D).1 (artifacts_hex fs D).2.
Proof. intros (pb & pib & Hpp & Hpip & ->). unfold artifacts_hex. by rewrite Hpp, Hpip. Qed.

Lemma artifacts_hex_plain (fs : gmap Path node) (D : Path) :
  string_forallb is_plain (artifacts_hex fs D).1 = true
  ∧ Forall (λ s, string_forallb is_plain s = true) (artifacts_hex fs D).2.
Proof.
  unfold artifacts_hex.
  destruct (stat fs (proof_path D)) as [[pb|]|],
           (stat fs (public_inputs_path D)) as [[pib|]|]; cbn [fst snd];
    try (split; [reflexivity | constructor]).
  split; [apply to_hex_plain | apply hex_windows_plain].
Qed.

Lemma artifacts_hex_same_inputs (fs fs' : gmap Path node) (D : Path) :
  same_inputs fs fs' → artifacts_hex fs' D = artifacts_hex fs D.
Proof.
  intros Hsame. unfold artifacts_hex.
  rewrite (same_inputs_stat fs fs' (proof_path D) Hsame)
    by (by rewrite name_proof_path).
  by rewrite (same_inputs_stat fs fs' (public_inputs_path D) Hsame)
    by (by rewrite name_public_inputs_path).
Qed.

Lemma json_dumps_output (fs : gmap Path node) (D : Path) :
  json_dumps (VDict (make_payload (artifacts_hex fs D).1 (artifacts_hex fs D).2))
  = output_text fs D.
Proof. destruct (artifacts_hex_plain fs D). by apply json_dumps_payload. Qed.

Lemma export_all_results (base : Path) (names : list string) (w w' : world) (r : dict) :
  export_all base names [] w = (Ok r, w') →
  r = (λ c, (c, VDict (make_payload (artifacts_hex (fs w) (base / c)%path).1
                                    (artifacts_hex (fs w) (base / c)%path).2)))
        <$> first_occurrences names.
Proof.
  intros (_ & _ & _ & Hkeys & _ & Hrec & _)%export_all_ok_inv.
  change (keys []) with (@nil string) in Hkeys. rewrite foldl_add_key_nil in Hkeys.
  etrans; [apply dict_of_keys | by rewrite Hkeys].
  - rewrite Hkeys. apply NoDup_first_occurrences.
  - intros c Hc. rewrite Hkeys in Hc. apply (proj1 (first_occurrences_elem _ _)) in Hc.
    destruct (Hrec c Hc) as (payload & -> & Hrecord).
    by rewrite (is_export_record_hex _ _ _ Hrecord).
Qed.

Lemma map_fmap {A B : Type} (f : A → B) (l : list A) : map f l = f <$> l.
Proof. induction l as [|x l IH]; [reflexivity|]. cbn. by rewrite IH. Qed.

Lemma dumps_dict_cons (level : nat) (item : string * value) (items : dict) :
  dumps level (VDict (item :: items))
  = "{" +:+ newline_indent (S level)
    +:+ String.concat ("," +:+ newline_indent (S level))
          (map (λ kv, encode_basestring_ascii kv.1 +:+ ": " +:+ dumps (S level) kv.2)
               (item :: items))
    +:+ newline_indent level +:+ "}".
Proof.
  cbn [dumps]. do 2 f_equal. f_equal. f_equal. apply map_ext. by intros [k x].
Qed.

(** [json.dumps] writes a report as [report_text] says. *)
Lemma json_dumps_report (entries : list (string * (string * list string))) :
  Forall (λ e, string_forallb is_plain e.2.1 = true
               ∧ Forall (λ s, string_forallb is_plain s = true) e.2.2) entries →
  json_dumps (VDict ((λ e, (e.1, VDict (make_payload e.2.1 e.2.2))) <$> entries))
  = report_text entries.
Proof.
  intros Hplain. unfold json_dumps, report_text.
  destruct entries as [|e entries]; [reflexivity|].
  set (f := λ e : string * (string * list string),
              (e.1, VDict (make_payload e.2.1 e.2.2))).
  change (f <$> e :: entries) with (f e :: (f <$> entries)). rewrite dumps_dict_cons.
  change (f e :: (f <$> entries)) with (f <$> e :: entries).
  rewrite map_fmap, <- list_fmap_compose. subst f.
  change (newline_indent 1) with (nl "  "). change (newline_indent 0) with (nl "").
  do 3 f_equal. f_equal. apply Forall_fmap_ext_1. eapply Forall_impl; [exact Hplain|].
  intros [c [ph his]] [Hp Hl]. cbn [fst snd compose] in *.
  by rewrite encode_key, (dumps_payload 1 ph his Hp Hl).
Qed.

Lemma export_all_report (base : Path) (names : list string) (w w' : world) (r : dict) :
  export_all base names [] w = (Ok r, w') →
  json_dumps (VDict r) = report_text (report_entries (fs w) base names).
Proof.
  intros ->%export_all_results. unfold report_entries.
  rewrite <- json_dumps_report.
  - by rewrite <- list_fmap_compose.
  - apply Forall_fmap, Forall_forall. intros c _. apply artifacts_hex_plain.
Qed.

Lemma export_directory_ok_text (D : Path) (w w' : world) (payload : dict) :
  export_directory D w = (Ok payload, w') →
  payload = make_payload (artifacts_hex (fs w) D).1 (artifacts_hex (fs w) D).2
  ∧ w' = World (<[output_path D := File (encode_text (output_text (fs w) D))]> (fs w))
               (stdout w) (trace w ++ success_events D (output_text (fs w) D)).
Proof.
  intros (pb & pib & Hpp & Hpip & _ & _ & _ & -> & ->)%export_directory_ok_inv.
  assert (make_payload (to_hex pb) (hex_windows pib)
          = make_payload (artifacts_hex (fs w) D).1 (artifacts_hex (fs w) D).2) as ->.
  { unfold artifacts_hex. by rewrite Hpp, Hpip. }
  by rewrite json_dumps_output.
Qed.

(** The calls and the files of a run in which every circuit is exported. *)
Lemma export_all_ok_files (base : Path) (names : list string) :
  ∀ (acc : dict) (w : world) (r : dict) (w' : world),
  export_all base names acc w = (Ok r, w') →
  trace w' = trace w
             ++ run_events base names ((λ c, output_text (fs w) (base / c)%path) <$> names)
  ∧ ∀ c, c ∈ names →
      stat (fs w') (output_path (base / c)%path)
      = Some (File (String.list_byte_of_string (output_text (fs w) (base / c)%path))).
Proof.
  induction names as [|c0 names IH]; intros acc w r w' Hall.
  { change (export_all base [] acc w) with (Ok acc, w) in Hall. simplify_eq.
    split; [unfold run_events; cbn; by rewrite app_nil_r | by intros c ?%elem_of_nil]. }
  rewrite export_all_cons in Hall.
  destruct (export_directory (base / c0)%path w) as [[payload0|e] w1] eqn:Hc0; [|done].
  pose proof (export_directory_same_inputs (base / c0)%path w) as Hsame.
  rewrite Hc0 in Hsame. cbn [snd] in Hsame.
  apply export_directory_ok_text in Hc0 as [_ Hw1].
  destruct (IH _ _ _ _ Hall) as [Htrace Hfiles].
  assert (∀ c, output_text (fs w1) (base / c)%path = output_text (fs w) (base / c)%path)
    as Htext.
  { intros c. unfold output_text. by rewrite (artifacts_hex_same_inputs _ _ _ Hsame). }
  assert ((λ c, output_text (fs w1) (base / c)%path) <$> names
          = (λ c, output_text (fs w) (base / c)%path) <$> names) as Htexts.
  { apply list_fmap_ext. intros _ c _. apply Htext. }
  rewrite Htexts in Htrace. clear Htexts.
  split.
  - rewrite Htrace, Hw1. cbn [trace]. unfold run_events, folders.
    rewrite !fmap_cons. cbn [zip_with mjoin list_join]. by rewrite <- !app_assoc.
  - intros c Hc.
    destruct (decide (output_path (base / c)%path ∈ output_path <$> folders base names))
      as [Hlater|Hlast].
    + apply list_elem_of_fmap in Hlater as (D' & Hout & HD').
      apply list_elem_of_fmap in HD' as (c' & -> & Hc').
      rewrite Hout, (Hfiles c' Hc'), Htext. by apply output_path_inj in Hout as <-.
    + assert (c = c0) as ->.
      { apply elem_of_cons in Hc as [->|Hc]; [reflexivity|]. exfalso. apply Hlast.
        apply list_elem_of_fmap. eexists. split; [reflexivity|].
        apply list_elem_of_fmap. by exists c. }
      apply export_all_ok_inv in Hall as (_ & _ & Hframe & _).
      rewrite (stat_named _ _ _ (name_output_path _)), (Hframe _ Hlast), Hw1. cbn [fs].
      by rewrite lookup_insert_eq.
Qed.

Lemma length_list_byte_of_string (s : string) :
  length (String.list_byte_of_string s) = String.length s.
Proof.
  unfold String.list_byte_of_string.
  induction s as [|c s IH]; [reflexivity|]. cbn. by rewrite IH.
Qed.

Lemma export_all_artifacts (base : Path) (names : list string) (acc : dict)
    (w w' : world) (r : dict) :
  export_all base names acc w = (Ok r, w') →
  ∀ c, c ∈ names →
    ∃ pb pib,
      stat (fs w) (proof_path (base / c)%path) = Some (File pb)
      ∧ stat (fs w) (public_inputs_path (base / c)%path) = Some (File pib)
      ∧ artifacts_hex (fs w) (base / c)%path = (to_hex pb, hex_windows pib).
Proof.
  intros Hall c Hc. apply export_all_ok_inv in Hall as (_ & _ & _ & _ & _ & Hrec & _).
  destruct (Hrec c Hc) as (payload & _ & pb & pib & Hpp & Hpip & _).
  exists pb, pib. split_and!; [exact Hpp | exact Hpip |].
  unfold artifacts_hex. by rewrite Hpp, Hpip.
Qed.

(** * The claims *)

(** C1. A public-inputs file of [32 * k] bytes is read as exactly [k] hex
    strings: the hex encodings of its consecutive 32-byte windows, in file
    order; decoding them and concatenating the results gives the file back.
    An empty file gives the empty list and is not an error. *)
Theorem read_public_inputs_ok (path : Path) (w : world) (data : bytes) (k : nat) :
  stat (fs w) path = Some (File data) →
  length data = 32 * k →
  ∃ (hs : list string) (windows : list bytes),
    read_public_inputs path w = (Ok hs, logs [EvRead path] w)
    ∧ length hs = k
    ∧ windows = (λ i, take 32 (drop (32 * i) data)) <$> seq 0 k
    ∧ Forall (λ window, length window = 32) windows
    ∧ hs = to_hex <$> windows
    ∧ mapM hex_decode hs = Some windows
    ∧ concat windows = data
    ∧ (k = 0 → hs = []).
Proof.
  intros Hstat Hlen.
  exists (hex_windows data), ((λ i, take 32 (drop (32 * i) data)) <$> seq 0 k).
  assert (hex_windows data = to_hex <$> ((λ i, take 32 (drop (32 * i) data)) <$> seq 0 k))
    as Hhs.
  { rewrite (hex_windows_multiple data k Hlen), <- list_fmap_compose. reflexivity. }
  split_and!.
  - rewrite read_public_inputs_eq, Hstat. unfold FIELD_ELEMENT_SIZE.
    rewrite decide_False; [reflexivity|]. rewrite Hlen, Nat.mul_comm, Nat.Div0.mod_mul. lia.
  - by rewrite Hhs, !length_fmap, length_seq.
  - reflexivity.
  - apply Forall_fmap, Forall_forall. intros i Hi%elem_of_seq. cbn.
    rewrite length_take, length_drop. lia.
  - exact Hhs.
  - rewrite Hhs. apply mapM_hex_decode.
  - apply (concat_windows k data Hlen).
  - intros ->. by rewrite Hhs.
Qed.

Lemma read_public_inputs_ok_witness :
  ∃ hs windows,
    read_public_inputs (public_inputs_path (example_base / "deposit")%path) world_valid
    = (Ok hs, logs [EvRead (public_inputs_path (example_base / "deposit")%path)] world_valid)
    ∧ length hs = 2
    ∧ windows = (λ i, take 32 (drop (32 * i) (replicate 64 x00))) <$> seq 0 2
    ∧ Forall (λ window, length window = 32) windows
    ∧ hs = to_hex <$> windows
    ∧ mapM hex_decode hs = Some windows
    ∧ concat windows = replicate 64 x00
    ∧ (2 = 0 → hs = []).
Proof.
  apply (read_public_inputs_ok
           (public_inputs_path (example_base / "deposit")%path) world_valid
           (replicate 64 x00) 2).
  - vm_compute. reflexivity.
  - reflexivity.
Defined.

(** C2. [read_public_inputs] raises its [ValueError] (MalformedInput) exactly
    when the file is there and its length is not a multiple of 32; the message
    carries the path and the length; nothing is written by an export that
    fails this way, and the run ends there with a non-zero status and an
    empty report. *)
Theorem read_public_inputs_malformed (path : Path) (w : world) :
  ((∃ msg, (read_public_inputs path w).1 = Raise (ValueError msg))
   ↔ ∃ data, stat (fs w) path = Some (File data) ∧ length data `mod` 32 ≠ 0)
  ∧ (∀ data, stat (fs w) path = Some (File data) → length data `mod` 32 ≠ 0 →
       read_public_inputs path w
       = (Raise (ValueError ("Public inputs file " +:+ path_str path +:+ " length "
                             +:+ pretty (length data)
                             +:+ " is not a multiple of 32")),
          logs [EvRead path] w))
  ∧ (∀ D msg w', export_directory D w = (Raise (ValueError msg), w') →
       fs w' = fs w ∧ stdout w' = stdout w
       ∧ ∃ t, trace w' = trace w ++ t ∧ Forall (λ ev, is_write ev = false) t)
  ∧ (∀ base pre c post results w1 msg w2,
       export_all base pre [] w = (Ok results, w1) →
       export_directory (base / c)%path w1 = (Raise (ValueError msg), w2) →
       run (Args (pre ++ c :: post) base) w = (1, w2)
       ∧ fs w2 = fs w1 ∧ stdout w2 = stdout w).
Proof.
  split_and!.
  - rewrite read_public_inputs_eq. cbn [fst]. unfold FIELD_ELEMENT_SIZE. split.
    + intros [msg H]. destruct (stat (fs w) path) as [[data|]|]; try discriminate H.
      exists data. split; [reflexivity|]. by destruct (decide _).
    + intros (data & -> & Hlen). rewrite decide_True by exact Hlen. by eexists.
  - intros data Hstat Hlen. rewrite read_public_inputs_eq, Hstat.
    unfold FIELD_ELEMENT_SIZE. by rewrite decide_True by exact Hlen.
  - intros D msg w'. rewrite export_directory_outcome. unfold export_outcome.
    intros H. repeat case_match; simplify_eq.
    split_and!; [reflexivity..|]. eexists. split; [reflexivity|]. by repeat constructor.
  - intros base pre c post results w1 msg w2 Hpre Hc. split_and!.
    + apply (run_fails _ _ _ (ValueError msg)). cbn [base_dir circuits].
      by eapply export_all_first_failure.
    + apply export_directory_raise in Hc as (t & -> & _). reflexivity.
    + apply export_directory_raise in Hc as (t & -> & _).
      apply export_all_ok_inv in Hpre as (Hout & _). exact Hout.
Qed.

Lemma read_public_inputs_malformed_witness :
  (read_public_inputs (public_inputs_path (example_base / "transfer")%path)
     world_malformed).1
  = Raise (ValueError
      "Public inputs file /repo/circuits-privacy/transfer/target/public_inputs length 31 is not a multiple of 32")
  ∧ (run (Args ["deposit"; "transfer"; "withdraw"] example_base) world_malformed).1 = 1.
Proof.
  pose proof (read_public_inputs_malformed
                (public_inputs_path (example_base / "transfer")%path) world_malformed)
    as (_ & Hmsg & _ & _).
  split.
  - rewrite (Hmsg (replicate 31 x00)); [reflexivity | vm_compute; reflexivity |].
    vm_compute. lia.
  - vm_compute. reflexivity.
Defined.

(** C3. For every byte sequence [b], [to_hex b] is ["0x"] followed by
    lowercase hexadecimal digits, two per byte, so its length is
    [2 * len b + 2] and [to_hex] of the empty sequence is ["0x"]; the
    function is total, and decoding its result gives [b] back. *)
Theorem to_hex_spec (b : bytes) :
  (exists digits : string,
      to_hex b = "0x" +:+ digits
      /\ String.length digits = (2 * length b)%nat
      /\ string_forallb is_lower_hex digits = true)
  /\ String.length (to_hex b) = (2 * length b + 2)%nat
  /\ to_hex [] = "0x"
  /\ hex_decode (to_hex b) = Some b.
Proof.
  split; [|split; [|split]].
  - exists (bytes_hex b). split; [reflexivity|].
    split; [apply bytes_hex_length | apply bytes_hex_lower].
  - apply to_hex_length.
  - reflexivity.
  - apply hex_decode_to_hex.
Qed.

(** C4, as the code has it. When [target/proof] or [target/public_inputs]
    does not exist, [export_directory] raises its [FileNotFoundError]
    (MissingArtifact) with a message that names the directory only; the only
    calls made are existence tests, so nothing has been read, and the file
    system is left as it was.  A path that exists but is a directory passes
    the existence test: the export then fails in the read with the error of
    the file system, again without writing anything. *)
Theorem export_directory_missing (D : Path) (w : world) :
  (stat (fs w) (proof_path D) = None ∨ stat (fs w) (public_inputs_path D) = None →
   ∃ t, export_directory D w
        = (Raise (FileNotFoundError
                    ("Expected proof/public_inputs in " +:+ path_str D +:+ "/target")),
           World (fs w) (stdout w) (trace w ++ t))
        ∧ Forall (λ ev, is_read ev = false ∧ is_write ev = false) t)
  ∧ (∀ n1 n2,
       stat (fs w) (proof_path D) = Some n1 →
       stat (fs w) (public_inputs_path D) = Some n2 →
       n1 = Dir ∨ n2 = Dir →
       ∃ p t, export_directory D w
              = (Raise (OSError EISDIR p), World (fs w) (stdout w) (trace w ++ t))
              ∧ Forall (λ ev, is_write ev = false) t).
Proof.
  rewrite export_directory_outcome. unfold export_outcome, missing_error, logs. split.
  - intros [Hpp|Hpip].
    + rewrite Hpp. eexists. split; [reflexivity|]. by repeat constructor.
    + rewrite Hpip. destruct (stat (fs w) (proof_path D)) as [[|]|];
        eexists; (split; [reflexivity|]); by repeat constructor.
  - intros n1 n2 -> -> [->| ->].
    + eexists _, _. split; [reflexivity|]. by repeat constructor.
    + destruct n1; eexists _, _; (split; [reflexivity|]); by repeat constructor.
Qed.

Lemma export_directory_missing_witness :
  ∃ t, export_directory (example_base / "deposit")%path world_missing
       = (Raise (FileNotFoundError
                   "Expected proof/public_inputs in /repo/circuits-privacy/deposit/target"),
          World (fs world_missing) (stdout world_missing) (trace world_missing ++ t))
       ∧ Forall (λ ev, is_read ev = false ∧ is_write ev = false) t.
Proof.
  apply (export_directory_missing (example_base / "deposit")%path world_missing).
  left. vm_compute. reflexivity.
Defined.

(** In [world_directory] the path [target/proof] is a directory, not a
    readable file, and yet the export does not raise [FileNotFoundError]: it
    fails in [read_bytes]. *)
Lemma export_directory_directory_proof :
  wf_fs (fs world_directory)
  ∧ ¬ readable_file (fs world_directory) (proof_path (example_base / "deposit")%path)
  ∧ (export_directory (example_base / "deposit")%path world_directory).1
    = Raise (OSError EISDIR (proof_path (example_base / "deposit")%path))
  ∧ ¬ ∃ msg, (export_directory (example_base / "deposit")%path world_directory).1
             = Raise (FileNotFoundError msg).
Proof.
  assert ((export_directory (example_base / "deposit")%path world_directory).1
          = Raise (OSError EISDIR (proof_path (example_base / "deposit")%path))) as Hrun.
  { vm_compute. reflexivity. }
  split_and!.
  - apply (bool_decide_unpack (wf_fs _)). vm_compute. exact I.
  - intros [data Hdata]. vm_compute in Hdata. discriminate Hdata.
  - exact Hrun.
  - intros [msg Hmsg]. rewrite Hrun in Hmsg. discriminate Hmsg.
Qed.



(** C6. Over any list of names, either every circuit is exported or there is
    a first one that fails.  In the second case the exception leaves [main]
    as it is, the process ends with status 1 and nothing is printed; the
    calls made are those of the circuits before the failing one and then
    calls of the failing circuit on its own paths, so that no later circuit
    is looked at or written; no input file has changed; and unless the
    exception is an error of the file system on [proof.json] itself, the
    file system is the one that the earlier circuits left.  When every
    circuit is exported, the status is 0 and the report is printed: one entry
    for each name, in the order of the first occurrences, with the hex
    strings of the artifacts of its folder. *)
Theorem fail_fast (base : Path) (names : list string) (w : world) :
  ((∃ results w', export_all base names [] w = (Ok results, w'))
   ∨ (∃ pre c post results w1 e w2,
        names = pre ++ c :: post
        ∧ export_all base pre [] w = (Ok results, w1)
        ∧ export_directory (base / c)%path w1 = (Raise e, w2)))
  ∧ (∀ pre c post results w1 e w2,
       names = pre ++ c :: post →
       export_all base pre [] w = (Ok results, w1) →
       export_directory (base / c)%path w1 = (Raise e, w2) →
       main (Args names base) w = (Raise e, w2)
       ∧ run (Args names base) w = (1, w2)
       ∧ stdout w2 = stdout w
       ∧ (∃ t, trace w2
               = trace w
                 ++ run_events base pre ((λ c', output_text (fs w) (base / c')%path) <$> pre)
                 ++ t
               ∧ Forall (λ ev, event_path ev ∈ own_paths (base / c)%path) t)
       ∧ same_inputs (fs w) (fs w2)
       ∧ ((∀ code, e ≠ OSError code (output_path (base / c)%path)) → fs w2 = fs w1))
  ∧ (∀ results w',
       export_all base names [] w = (Ok results, w') →
       run (Args names base) w
       = (0, World (fs w')
                   (stdout w +:+ report_text (report_entries (fs w) base names) +:+ "
")
                   (trace w'))
       ∧ results
         = (λ c, (c, VDict (make_payload (artifacts_hex (fs w) (base / c)%path).1
                                         (artifacts_hex (fs w) (base / c)%path).2)))
             <$> first_occurrences names
       ∧ ∀ c, c ∈ names →
           ∃ pb pib,
             stat (fs w) (proof_path (base / c)%path) = Some (File pb)
             ∧ stat (fs w) (public_inputs_path (base / c)%path) = Some (File pib)
             ∧ artifacts_hex (fs w) (base / c)%path = (to_hex pb, hex_windows pib)).
Proof.
  split_and!.
  - destruct (export_all_cases base names [] w)
      as [?|(pre & c & post & r & w1 & e & w2 & ? & ? & ? & _)]; [by left|].
    right. by exists pre, c, post, r, w1, e, w2.
  - intros pre c post results w1 e w2 -> Hpre Hc.
    pose proof (export_all_first_failure base pre post c w w1 w2 results e Hpre Hc) as Hall.
    apply export_directory_raise in Hc as (t & -> & Hown).
    pose proof (export_all_ok_files _ _ _ _ _ _ Hpre) as [Htrace _].
    apply export_all_ok_inv in Hpre as (Hout & Hsame & _).
    split_and!.
    + unfold main. cbn [base_dir circuits]. by rewrite bind_eq, Hall.
    + by apply (run_fails _ _ _ e).
    + exact Hout.
    + exists t. split; [|exact Hown]. cbn [logs trace]. by rewrite Htrace, <- app_assoc.
    + exact Hsame.
    + reflexivity.
  - intros results w' Hall. split_and!.
    + rewrite (run_succeeds (Args names base) w w' results Hall).
      rewrite (export_all_report _ _ _ _ _ Hall).
      by apply export_all_ok_inv in Hall as (-> & _).
    + by apply export_all_results in Hall.
    + exact (export_all_artifacts _ _ _ _ _ _ Hall).
Qed.

Lemma fail_fast_witness :
  run (Args ["deposit"; "transfer"; "withdraw"] example_base) world_malformed
  = (1, (export_directory (example_base / "transfer")%path
           (export_all example_base ["deposit"] [] world_malformed).2).2)
  ∧ stdout (export_directory (example_base / "transfer")%path
              (export_all example_base ["deposit"] [] world_malformed).2).2
    = stdout world_malformed
  ∧ fs (export_directory (example_base / "transfer")%path
          (export_all example_base ["deposit"] [] world_malformed).2).2
    = fs (export_all example_base ["deposit"] [] world_malformed).2.
Proof.
  destruct (fail_fast example_base ["deposit"; "transfer"; "withdraw"] world_malformed)
    as (_ & Hfail & _).
  pose (r1 := export_all example_base ["deposit"] [] world_malformed).
  pose (r2 := export_directory (example_base / "transfer")%path r1.2).
  destruct (Hfail ["deposit"] "transfer" ["withdraw"]
              (match r1.1 with Ok r => r | Raise _ => [] end) r1.2
              (match r2.1 with Raise e => e | Ok _ => ValueError "" end) r2.2)
    as (_ & Hrun & Hout & _ & _ & Hfs).
  - reflexivity.
  - apply outcome_eq. vm_compute. reflexivity.
  - apply outcome_eq. vm_compute. reflexivity.
  - split_and!; [exact Hrun | exact Hout |]. apply Hfs.
    intros code. vm_compute. discriminate.
Defined.

(** C7. Without positional names the circuits are [deposit], [transfer] and
    [withdraw], in this order; names that are given are taken as they are.
    A run that ends with status 0 has exported the circuits one after the
    other in the order of the list, writing for each the text of its record,
    and has printed one report: its entries are the names in the order of
    their first occurrence (the list itself when no name is repeated), each
    followed by the hex strings of the two artifacts found in its folder,
    which is the record that [export_directory] returns for it.  A name of
    plain ASCII characters is printed as it is, between quotes; any other
    character is escaped: an accented e (bytes 195 169) as [\u00e9], a
    character outside the basic plane (bytes 240 159 152 128) as the pair
    [\ud83d\ude00], and a quote, a backslash and a line feed each behind a
    backslash. *)
Theorem aggregate_report (default_base_dir : Path) :
  (∀ base_dir_option,
     circuits (parse_args default_base_dir [] base_dir_option)
     = ["deposit"; "transfer"; "withdraw"])
  ∧ (∀ positional base_dir_option,
       positional ≠ [] →
       circuits (parse_args default_base_dir positional base_dir_option) = positional)
  ∧ (∀ a w w',
       run a w = (0, w') →
       stdout w'
       = stdout w +:+ report_text (report_entries (fs w) (base_dir a) (circuits a)) +:+ "
"
       ∧ (report_entries (fs w) (base_dir a) (circuits a)).*1
         = first_occurrences (circuits a)
       ∧ (NoDup (circuits a) →
          (report_entries (fs w) (base_dir a) (circuits a)).*1 = circuits a)
       ∧ (∀ c, c ∈ circuits a →
            ∃ pb pib,
              stat (fs w) (proof_path (base_dir a / c)%path) = Some (File pb)
              ∧ stat (fs w) (public_inputs_path (base_dir a / c)%path) = Some (File pib)
              ∧ (c, (to_hex pb, hex_windows pib))
                ∈ report_entries (fs w) (base_dir a) (circuits a)
              ∧ (export_directory (base_dir a / c)%path w).1
                = Ok (make_payload (to_hex pb) (hex_windows pib)))
       ∧ trace w'
         = trace w
           ++ run_events (base_dir a) (circuits a)
                ((λ c, output_text (fs w) (base_dir a / c)%path) <$> circuits a))
  ∧ (∀ c, string_forallb is_plain c = true → key_text c = quoted c)
  ∧ key_text ("caf" +:+ String "195" (String "169" "")) = quoted "caf\u00e9"
  ∧ key_text (String "240" (String "159" (String "152" (String "128" ""))))
    = quoted "\ud83d\ude00"
  ∧ key_text (String "034" (String "092" (String "010" "")))
    = quoted (String "092" (String "034" (String "092" (String "092" "\n")))).
Proof.
  split_and!; [| | | | reflexivity..].
  - reflexivity.
  - intros [|c l] o Hne; [done | reflexivity].
  - intros a w w' (results & w1 & Hall & ->)%run_ok_inv.
    assert ((report_entries (fs w) (base_dir a) (circuits a)).*1
            = first_occurrences (circuits a)) as Hkeys.
    { unfold report_entries. rewrite <- list_fmap_compose. apply list_fmap_id. }
    pose proof (export_all_ok_files _ _ _ _ _ _ Hall) as [Htrace _].
    pose proof (proj1 (export_all_succeeds_iff _ _ _ _) (ex_intro _ _ (ex_intro _ _ Hall)))
      as Hexports.
    rewrite Forall_forall in Hexports.
    rewrite (export_all_report _ _ _ _ _ Hall).
    apply export_all_ok_inv in Hall as (Hout & _ & _ & _ & _ & Hrec & _).
    cbn [stdout trace]. split_and!.
    + by rewrite Hout.
    + exact Hkeys.
    + intros Hnd. by rewrite Hkeys, first_occurrences_NoDup.
    + intros c Hc. destruct (Hrec c Hc) as (payload & _ & pb & pib & Hpp & Hpip & _).
      exists pb, pib. split_and!; [exact Hpp | exact Hpip | |].
      * unfold report_entries. apply list_elem_of_fmap. exists c.
        split; [|by apply first_occurrences_elem].
        unfold artifacts_hex. by rewrite Hpp, Hpip.
      * destruct (Hexports c Hc) as [payload' Hc']. rewrite Hc'.
        apply outcome_eq, export_directory_ok_inv in Hc'
          as (pb' & pib' & Hpp' & Hpip' & _ & _ & _ & Hpay & _).
        rewrite Hpp in Hpp'. rewrite Hpip in Hpip'.
        injection Hpp' as <-. injection Hpip' as <-. by rewrite Hpay.
    + exact Htrace.
  - intros c Hc. unfold key_text. by rewrite escape_plain.
Qed.

Lemma aggregate_report_witness :
  stdout (run (parse_args example_base [] None) world_valid).2
  = stdout world_valid
    +:+ report_text
          (report_entries (fs world_valid)
             (base_dir (parse_args example_base [] None))
             (circuits (parse_args example_base [] None)))
    +:+ "
"
  ∧ (report_entries (fs world_valid)
       (base_dir (parse_args example_base [] None))
       (circuits (parse_args example_base [] None))).*1
    = first_occurrences (circuits (parse_args example_base [] None)).
Proof.
  destruct (aggregate_report example_base) as (_ & _ & Hrun & _).
  destruct (Hrun (parse_args example_base [] None) world_valid
              (run (parse_args example_base [] None) world_valid).2)
    as (Hout & Hkeys & _).
  - apply outcome_eq. vm_compute. reflexivity.
  - exact (conj Hout Hkeys).
Defined.

(** C8. An export leaves the bytes of [target/proof] and of
    [target/public_inputs] as they were, and with them every file that is
    not called [proof.json] and every directory.  Nothing is printed, and
    among the calls made there is at most one write, to [target/proof.json]
    of the directory. *)
Theorem inputs_not_mutated (D : Path) (w : world) :
  stat (fs (export_directory D w).2) (proof_path D) = stat (fs w) (proof_path D)
  ∧ stat (fs (export_directory D w).2) (public_inputs_path D)
    = stat (fs w) (public_inputs_path D)
  ∧ same_inputs (fs w) (fs (export_directory D w).2)
  ∧ (∀ p, stat (fs (export_directory D w).2) p = Some Dir ↔ stat (fs w) p = Some Dir)
  ∧ stdout (export_directory D w).2 = stdout w
  ∧ ∃ t, trace (export_directory D w).2 = trace w ++ t
         ∧ length (filter (λ ev, is_write ev = true) t) ≤ 1
         ∧ Forall (λ ev, is_write ev = true → event_path ev = output_path D) t.
Proof.
  pose proof (export_directory_same_tree D w) as [Hsame Hdirs].
  split_and!.
  - apply same_inputs_stat; [exact Hsame|]. by rewrite name_proof_path.
  - apply same_inputs_stat; [exact Hsame|]. by rewrite name_public_inputs_path.
  - exact Hsame.
  - exact Hdirs.
  - rewrite export_directory_outcome. unfold export_outcome.
    repeat case_match; reflexivity.
  - rewrite export_directory_outcome. unfold export_outcome, success_events, logs.
    repeat case_match; cbn [snd trace]; eexists; (split; [reflexivity|]);
      (split; [cbv; lia | repeat constructor; done]).
Qed.

(** C9. An export that fails because an artifact is missing, or because the
    length of the public inputs is not a multiple of 32, has made no write
    call and leaves the file system as it was: a [target/proof.json] written
    by an earlier run is still there with the same content.  The same holds
    for every failure that is not an error of the file system on
    [proof.json] itself. *)
Theorem failed_export_keeps_output (D : Path) (w : world) :
  (stat (fs w) (proof_path D) = None ∨ stat (fs w) (public_inputs_path D) = None →
   ∃ msg t,
     export_directory D w
     = (Raise (FileNotFoundError msg), World (fs w) (stdout w) (trace w ++ t))
     ∧ Forall (λ ev, is_write ev = false) t)
  ∧ (∀ pb pib,
       stat (fs w) (proof_path D) = Some (File pb) →
       stat (fs w) (public_inputs_path D) = Some (File pib) →
       length pib `mod` 32 ≠ 0 →
       ∃ msg t,
         export_directory D w
         = (Raise (ValueError msg), World (fs w) (stdout w) (trace w ++ t))
         ∧ Forall (λ ev, is_write ev = false) t)
  ∧ (∀ e w',
       export_directory D w = (Raise e, w') →
       (∀ code, e ≠ OSError code (output_path D)) →
       fs w' = fs w
       ∧ stat (fs w') (output_path D) = stat (fs w) (output_path D)
       ∧ ∃ t, trace w' = trace w ++ t ∧ Forall (λ ev, is_write ev = false) t).
Proof.
  rewrite export_directory_outcome.
  unfold export_outcome, missing_error, malformed_error, FIELD_ELEMENT_SIZE, logs.
  split_and!.
  - intros [Hpp|Hpip].
    + rewrite Hpp. eexists _, _. split; [reflexivity|]. by repeat constructor.
    + rewrite Hpip. destruct (stat (fs w) (proof_path D)) as [[|]|];
        eexists _, _; (split; [reflexivity|]); by repeat constructor.
  - intros pb pib -> -> Hlen. rewrite decide_True by exact Hlen.
    eexists _, _. split; [reflexivity|]. by repeat constructor.
  - intros e w' Hrun Hnot. unfold success_events in Hrun.
    repeat case_match; simplify_eq; cbn [fs trace];
      try (by exfalso; eapply Hnot);
      (split_and!; [reflexivity | reflexivity |]);
      eexists; (split; [reflexivity|]); by repeat constructor.
Qed.

Lemma failed_export_keeps_output_witness :
  (fs (export_directory (example_base / "transfer")%path world_malformed).2
   = fs world_malformed
   ∧ stat (fs (export_directory (example_base / "transfer")%path world_malformed).2)
          (output_path (example_base / "transfer")%path)
     = stat (fs world_malformed) (output_path (example_base / "transfer")%path))
  ∧ stat (fs world_malformed) (output_path (example_base / "transfer")%path)
    = Some stale_output.
Proof.
  pose (r := export_directory (example_base / "transfer")%path world_malformed).
  split.
  - destruct (proj2 (proj2 (failed_export_keeps_output
                              (example_base / "transfer")%path world_malformed))
                (match r.1 with Raise e => e | Ok _ => ValueError "" end) r.2)
      as (Hfs & Hstat & _).
    + apply outcome_eq. vm_compute. reflexivity.
    + intros code. vm_compute. discriminate.
    + exact (conj Hfs Hstat).
  - vm_compute. reflexivity.
Defined.

(** C10. In a run that ends with status 0 over a list in which a name
    occurs several times, [export_directory] is called, and writes its
    output file, once for every position of the list, in order, each time
    with the text of the record of that folder; at the end the output file
    of every listed circuit holds the bytes of that text.  The report that is
    printed has exactly one entry for each name, with the hex strings of the
    record that the export made for the last occurrence of the name
    returned. *)
Theorem duplicate_names (a : args) (w w' : world) :
  run a w = (0, w') →
  stdout w'
  = stdout w +:+ report_text (report_entries (fs w) (base_dir a) (circuits a)) +:+ "
"
  ∧ trace w'
    = trace w
      ++ run_events (base_dir a) (circuits a)
           ((λ c, output_text (fs w) (base_dir a / c)%path) <$> circuits a)
  ∧ length (filter (λ ev, is_write ev = true)
              (run_events (base_dir a) (circuits a)
                 ((λ c, output_text (fs w) (base_dir a / c)%path) <$> circuits a)))
    = length (circuits a)
  ∧ ∀ c, c ∈ circuits a →
      (∃ pb pib,
         stat (fs w) (proof_path (base_dir a / c)%path) = Some (File pb)
         ∧ stat (fs w) (public_inputs_path (base_dir a / c)%path) = Some (File pib)
         ∧ artifacts_hex (fs w) (base_dir a / c)%path = (to_hex pb, hex_windows pib))
      ∧ length (filter (λ e, e.1 = c) (report_entries (fs w) (base_dir a) (circuits a))) = 1
      ∧ (c, artifacts_hex (fs w) (base_dir a / c)%path)
        ∈ report_entries (fs w) (base_dir a) (circuits a)
      ∧ stat (fs w') (output_path (base_dir a / c)%path)
        = Some (File (String.list_byte_of_string
                        (payload_text (artifacts_hex (fs w) (base_dir a / c)%path).1
                                      (artifacts_hex (fs w) (base_dir a / c)%path).2)))
      ∧ ∀ pre post,
          circuits a = pre ++ c :: post → c ∉ post →
          (export_directory (base_dir a / c)%path
             (export_all (base_dir a) pre [] w).2).1
          = Ok (make_payload (artifacts_hex (fs w) (base_dir a / c)%path).1
                             (artifacts_hex (fs w) (base_dir a / c)%path).2).
Proof.
  intros (results & w1 & Hall & ->)%run_ok_inv.
  pose proof (export_all_ok_files _ _ _ _ _ _ Hall) as [Htrace Hfiles].
  rewrite (export_all_report _ _ _ _ _ Hall).
  pose proof Hall as Hinv.
  apply export_all_ok_inv in Hinv as (Hout & _).
  cbn [stdout trace fs]. split_and!.
  - by rewrite Hout.
  - exact Htrace.
  - apply run_events_writes. by rewrite length_fmap.
  - intros c Hc.
    assert (c ∈ first_occurrences (circuits a)) as Hfirst by by apply first_occurrences_elem.
    split_and!.
    + exact (export_all_artifacts _ _ _ _ _ _ Hall c Hc).
    + unfold report_entries.
      pose proof (NoDup_first_occurrences (circuits a)) as Hnd.
      induction (first_occurrences (circuits a)) as [|x l IH]; [by apply elem_of_nil in Hfirst|].
      apply NoDup_cons in Hnd as [Hnin Hnd]. rewrite fmap_cons, filter_cons. cbn [fst].
      destruct (decide (x = c)) as [->|Hne].
      * cbn [length]. f_equal. apply length_zero_iff_nil, filter_none.
        apply Forall_fmap, Forall_forall. intros y Hy. cbn. intros ->. by apply Hnin.
      * apply IH; [|exact Hnd]. by apply elem_of_cons in Hfirst as [->|?].
    + unfold report_entries. apply list_elem_of_fmap. by exists c.
    + exact (Hfiles c Hc).
    + intros pre post Hnames Hlast. rewrite Hnames, export_all_app in Hall.
      destruct (export_all (base_dir a) pre [] w) as [[r1|e1] w2] eqn:Hpre; [|done].
      pose proof (export_all_ok_inv _ _ _ _ _ _ Hpre) as (_ & Hsame & _).
      rewrite export_all_cons in Hall. cbn [snd].
      destruct (export_directory (base_dir a / c)%path w2) as [[payload|e] w3] eqn:Hc';
        [|done].
      apply export_directory_ok_text in Hc' as [-> _].
      cbn [fst]. by rewrite (artifacts_hex_same_inputs _ _ _ Hsame).
Qed.

Lemma duplicate_names_witness :
  stdout (run (Args ["deposit"; "transfer"; "deposit"] example_base) world_valid).2
  = stdout world_valid
    +:+ report_text
          (report_entries (fs world_valid)
             (base_dir (Args ["deposit"; "transfer"; "deposit"] example_base))
             (circuits (Args ["deposit"; "transfer"; "deposit"] example_base)))
    +:+ "
"
  ∧ length (filter (λ ev, is_write ev = true)
              (run_events (base_dir (Args ["deposit"; "transfer"; "deposit"] example_base))
                 (circuits (Args ["deposit"; "transfer"; "deposit"] example_base))
                 ((λ c, output_text (fs world_valid)
                          (base_dir (Args ["deposit"; "transfer"; "deposit"] example_base)
                           / c)%path)
                    <$> circuits (Args ["deposit"; "transfer"; "deposit"] example_base))))
    = length (circuits (Args ["deposit"; "transfer"; "deposit"] example_base)).
Proof.
  destruct (duplicate_names (Args ["deposit"; "transfer"; "deposit"] example_base)
              world_valid
              (run (Args ["deposit"; "transfer"; "deposit"] example_base) world_valid).2)
    as (Hout & _ & Hwrites & _).
  - apply outcome_eq. vm_compute. reflexivity.
  - exact (conj Hout Hwrites).
Defined.

(** * Further properties of the script *)

(** *** Hex strings of the reader *)

Lemma multiple_of_field_size (n : nat) :
  n `mod` FIELD_ELEMENT_SIZE = 0 → n = FIELD_ELEMENT_SIZE * (n `div` FIELD_ELEMENT_SIZE).
Proof. unfold FIELD_ELEMENT_SIZE. intros H. by apply Nat.Div0.div_exact. Qed.

Lemma read_public_inputs_ok_inv (path : Path) (w w' : world) (hs : list string) :
  read_public_inputs path w = (Ok hs, w') →
  ∃ data, stat (fs w) path = Some (File data)
          ∧ length data `mod` FIELD_ELEMENT_SIZE = 0
          ∧ hs = hex_windows data
          ∧ w' = logs [EvRead path] w.
Proof.
  rewrite read_public_inputs_eq.
  destruct (stat (fs w) path) as [[data|]|]; [|done..].
  destruct (decide _) as [|Hlen]; [done|]. intros [= <- <-].
  exists data. split_and!; try done. lia.
Qed.

Lemma hex_windows_to_hex (data : bytes) (k : nat) :
  length data = FIELD_ELEMENT_SIZE * k →
  hex_windows data
  = to_hex <$> ((λ i, take FIELD_ELEMENT_SIZE (drop (FIELD_ELEMENT_SIZE * i) data))
                  <$> seq 0 k).
Proof.
  intros Hlen. by rewrite (hex_windows_multiple data k Hlen), <- list_fmap_compose.
Qed.

Lemma hex_digits_of_to_hex (windows : list bytes) :
  hex_digits_of <$> (to_hex <$> windows) = bytes_hex <$> windows.
Proof. rewrite <- list_fmap_compose. by apply list_fmap_ext. Qed.

Lemma bytes_hex_app (a b : bytes) : bytes_hex (a ++ b) = bytes_hex a +:+ bytes_hex b.
Proof.
  induction a as [|x a IH]; [reflexivity|].
  cbn [app bytes_hex]. by rewrite IH, !append_cons.
Qed.

Lemma concat_bytes_hex (windows : list bytes) :
  String.concat "" (bytes_hex <$> windows) = bytes_hex (concat windows).
Proof.
  induction windows as [|x windows IH]; [reflexivity|].
  cbn [fmap list_fmap String.concat concat]. rewrite bytes_hex_app.
  destruct windows as [|y windows].
  - cbn [concat bytes_hex fmap list_fmap]. clear IH.
    induction (bytes_hex x) as [|c s IHs]; [reflexivity|]. by rewrite append_cons, <- IHs.
  - cbn [fmap list_fmap] in *. by rewrite IH.
Qed.

(** X1. Every string that [read_public_inputs] returns is one whole field
    element: [0x] and 64 digits, 66 characters, which decode to exactly 32
    bytes.  The reader never returns a shorter last element. *)
Theorem public_inputs_are_field_elements (path : Path) (w w' : world) (hs : list string) :
  read_public_inputs path w = (Ok hs, w') →
  Forall (λ s, String.length s = 66
               ∧ ∃ window, hex_decode s = Some window ∧ length window = 32) hs.
Proof.
  intros (data & _ & Hlen%multiple_of_field_size & -> & _)%read_public_inputs_ok_inv.
  rewrite (hex_windows_multiple data _ Hlen). apply Forall_fmap, Forall_forall.
  intros i Hi%elem_of_seq. cbn beta.
  assert (length (take FIELD_ELEMENT_SIZE (drop (FIELD_ELEMENT_SIZE * i) data)) = 32)
    as Hwindow.
  { rewrite length_take, length_drop. unfold FIELD_ELEMENT_SIZE in *. lia. }
  split.
  - by rewrite to_hex_length, Hwindow.
  - eexists. split; [apply hex_decode_to_hex | exact Hwindow].
Qed.

Lemma public_inputs_are_field_elements_witness :
  Forall (λ s, String.length s = 66
               ∧ ∃ window, hex_decode s = Some window ∧ length window = 32)
    (hex_windows (replicate 64 x00)).
Proof.
  pose (path := public_inputs_path (example_base / "deposit")%path).
  apply (public_inputs_are_field_elements path world_valid (read_public_inputs path world_valid).2).
  apply outcome_eq. vm_compute. reflexivity.
Defined.

(** X2. The digits of the strings that [read_public_inputs] returns, put
    one after the other behind [0x], are the hex string of the whole file:
    reading a file as public inputs and reading it as a proof give the
    same digits. *)
Theorem public_inputs_digits (path : Path) (w w' : world) (hs : list string) (data : bytes) :
  stat (fs w) path = Some (File data) →
  read_public_inputs path w = (Ok hs, w') →
  to_hex data = "0x" +:+ String.concat "" (hex_digits_of <$> hs).
Proof.
  intros Hstat (data' & Hstat' & Hlen%multiple_of_field_size & -> & _)%read_public_inputs_ok_inv.
  rewrite Hstat in Hstat'. injection Hstat' as <-.
  rewrite (hex_windows_to_hex data _ Hlen), hex_digits_of_to_hex, concat_bytes_hex.
  by rewrite (concat_windows _ data Hlen).
Qed.

Lemma public_inputs_digits_witness :
  to_hex (replicate 64 x00)
  = "0x" +:+ String.concat "" (hex_digits_of <$> hex_windows (replicate 64 x00)).
Proof.
  pose (path := public_inputs_path (example_base / "deposit")%path).
  apply (public_inputs_digits path world_valid (read_public_inputs path world_valid).2).
  - vm_compute. reflexivity.
  - apply outcome_eq. vm_compute. reflexivity.
Defined.

(** *** The record of an export *)

Lemma mapM_value_bytes (windows : list bytes) :
  mapM value_bytes (VStr <$> (to_hex <$> windows)) = Some windows.
Proof.
  apply mapM_Some. induction windows as [|x windows IH]; constructor; [|exact IH].
  apply hex_decode_to_hex.
Qed.

(** X3. The record that [export_directory] returns loses nothing: decoding
    its [proof] string gives the bytes of [target/proof], and decoding its
    [public_inputs] strings and joining the results gives the bytes of
    [target/public_inputs]. *)
Theorem export_record_round_trip (D : Path) (w w' : world) (payload : dict) :
  export_directory D w = (Ok payload, w') →
  ∃ pb pib,
    stat (fs w) (proof_path D) = Some (File pb)
    ∧ stat (fs w) (public_inputs_path D) = Some (File pib)
    ∧ payload_bytes payload = Some (pb, pib).
Proof.
  intros (pb & pib & Hpp & Hpip & Hlen%multiple_of_field_size & _ & _ & -> & _)%export_directory_ok_inv.
  exists pb, pib. split_and!; [done..|].
  unfold payload_bytes, make_payload. cbn [dict_get].
  rewrite !decide_True by done. rewrite decide_False by done. rewrite decide_True by done.
  rewrite hex_decode_to_hex, (hex_windows_to_hex pib _ Hlen), mapM_value_bytes.
  by rewrite (concat_windows _ pib Hlen).
Qed.

Lemma export_record_round_trip_witness :
  ∃ pb pib,
    stat (fs world_valid) (proof_path (example_base / "deposit")%path) = Some (File pb)
    ∧ stat (fs world_valid) (public_inputs_path (example_base / "deposit")%path)
      = Some (File pib)
    ∧ payload_bytes
        (match (export_directory (example_base / "deposit")%path world_valid).1 with
         | Ok payload => payload
         | Raise _ => []
         end)
      = Some (pb, pib).
Proof.
  apply (export_record_round_trip (example_base / "deposit")%path world_valid
           (export_directory (example_base / "deposit")%path world_valid).2).
  apply outcome_eq. vm_compute. reflexivity.
Defined.

(** *** Outcomes of one export *)

(** X4. What each outcome of [export_directory] tells about the file
    system it ran in.  If it returns a record, both artifacts are regular
    files, the public inputs have a length that is a multiple of 32,
    [target] is a directory, [target/proof.json] is not one, and the record
    is made of the hex strings of the two files.  If it raises its own
    [FileNotFoundError], the message names the directory and one of the two
    artifacts does not exist.  If it raises a [ValueError], both artifacts
    are regular files and the length of the public inputs is not a multiple
    of 32.  An error of the file system is always about one of the three
    paths of the directory. *)
Theorem export_directory_outcomes (D : Path) (w : world) :
  (∀ payload,
     (export_directory D w).1 = Ok payload →
     ∃ pb pib,
       stat (fs w) (proof_path D) = Some (File pb)
       ∧ stat (fs w) (public_inputs_path D) = Some (File pib)
       ∧ length pib `mod` 32 = 0
       ∧ stat (fs w) (output_path D) ≠ Some Dir
       ∧ stat (fs w) (D / "target")%path = Some Dir
       ∧ payload = [("proof", VStr (to_hex pb));
                    ("public_inputs", VList (VStr <$> hex_windows pib))])
  ∧ (∀ msg,
       (export_directory D w).1 = Raise (FileNotFoundError msg) →
       msg = "Expected proof/public_inputs in " +:+ path_str D +:+ "/target"
       ∧ (stat (fs w) (proof_path D) = None ∨ stat (fs w) (public_inputs_path D) = None))
  ∧ (∀ msg,
       (export_directory D w).1 = Raise (ValueError msg) →
       ∃ pb pib,
         stat (fs w) (proof_path D) = Some (File pb)
         ∧ stat (fs w) (public_inputs_path D) = Some (File pib)
         ∧ length pib `mod` 32 ≠ 0)
  ∧ (∀ code p, (export_directory D w).1 = Raise (OSError code p) → p ∈ own_paths D).
Proof.
  split.
  { intros payload Hrun. apply outcome_eq, export_directory_ok_inv in Hrun
      as (pb & pib & Hpp & Hpip & Hlen & Hout & Hparent & Hpay & _).
    rewrite parent_output_path in Hparent. by exists pb, pib. }
  rewrite export_directory_outcome.
  unfold export_outcome, missing_error, malformed_error, own_paths, FIELD_ELEMENT_SIZE.
  split_and!.
  - intros msg H.
    destruct (stat (fs w) (proof_path D)) as [n1|].
    + destruct (stat (fs w) (public_inputs_path D)) as [n2|].
      * exfalso. revert H. destruct n1, n2; repeat case_match; done.
      * destruct n1; cbn [fst] in H; injection H as <-; by split; [|right].
    + cbn [fst] in H. injection H as <-. by split; [|left].
  - intros msg H.
    destruct (stat (fs w) (proof_path D)) as [[pb|]|],
             (stat (fs w) (public_inputs_path D)) as [[pib|]|]; try done.
    destruct (decide _) as [Hlen|Hlen]; [by exists pb, pib|].
    exfalso. revert H. repeat case_match; done.
  - intros code p. repeat case_match; intros Herr; cbn [fst] in Herr; simplify_eq;
      rewrite !elem_of_cons; auto.
Qed.

Lemma export_directory_outcomes_witness :
  ∃ pb pib,
    stat (fs world_malformed) (proof_path (example_base / "transfer")%path) = Some (File pb)
    ∧ stat (fs world_malformed) (public_inputs_path (example_base / "transfer")%path)
      = Some (File pib)
    ∧ length pib `mod` 32 ≠ 0.
Proof.
  pose (r := export_directory (example_base / "transfer")%path world_malformed).
  destruct (export_directory_outcomes (example_base / "transfer")%path world_malformed)
    as (_ & _ & Hvalue & _).
  apply (Hvalue (match r.1 with Raise (ValueError msg) => msg | _ => "" end)).
  vm_compute. reflexivity.
Defined.

(** X5. The calls of an export always come in the same order: existence of
    the proof, existence of the public inputs, read of the proof, read of
    the public inputs, write of the output; an export stops at the first
    step that fails, and one that returns a record has made all five. *)
Theorem export_directory_call_order (D : Path) (w : world) :
  ∃ t text,
    trace (export_directory D w).2 = trace w ++ t
    ∧ t ≠ []
    ∧ t `prefix_of` success_events D text
    ∧ (exports D w → t = success_events D text).
Proof.
  unfold exports. rewrite export_directory_outcome.
  unfold export_outcome, success_events, logs.
  repeat case_match; cbn [fst snd trace];
    eexists _, _; (split_and!; [reflexivity | done | | ]);
    try (intros [? [=]]); try done;
    try (by eexists; cbn [app]; reflexivity).
  Unshelve. all: exact "".
Qed.

Lemma export_directory_fs_eq (D : Path) (w : world) :
  fs (export_directory D w).2
  = match (export_directory D w).1 with
    | Ok payload =>
        <[output_path D := File (encode_text (json_dumps (VDict payload)))]> (fs w)
    | Raise _ => fs w
    end.
Proof.
  destruct (export_directory D w) as [[payload|e] w'] eqn:Hrun; cbn [fst snd].
  - by apply export_directory_ok_inv in Hrun as (pb & pib & _ & _ & _ & _ & _ & _ & ->).
  - by apply export_directory_raise in Hrun as (t & -> & _).
Qed.

(** X6. Exporting a directory a second time gives the same record and
    leaves the file system as the first export left it: the second export
    succeeds, returns the same record and writes the same text again. *)
Theorem export_directory_idempotent (D : Path) (w w1 : world) (payload : dict) :
  export_directory D w = (Ok payload, w1) →
  export_directory D w1
  = (Ok payload,
     World (fs w1) (stdout w1)
           (trace w1 ++ success_events D (json_dumps (VDict payload)))).
Proof.
  intros Hrun. pose proof (export_directory_same_tree D w) as [Hsame _].
  rewrite Hrun in Hsame. cbn [snd] in Hsame.
  apply export_directory_ok_inv in Hrun
    as (pb & pib & Hpp & Hpip & Hlen & Hout & Hparent & -> & ->).
  cbn [fs] in Hsame.
  rewrite (export_directory_ok D _ pb pib); cbn [fs stdout trace].
  - by rewrite insert_insert_eq.
  - by rewrite (same_inputs_stat _ _ _ Hsame) by (by rewrite name_proof_path).
  - by rewrite (same_inputs_stat _ _ _ Hsame) by (by rewrite name_public_inputs_path).
  - exact Hlen.
  - by erewrite stat_insert_eq by apply name_output_path.
  - by rewrite (same_inputs_stat _ _ _ Hsame)
      by (by rewrite parent_output_path, name_target).
Qed.

Lemma export_directory_idempotent_witness :
  export_directory (example_base / "deposit")%path
    (export_directory (example_base / "deposit")%path world_valid).2
  = (Ok (match (export_directory (example_base / "deposit")%path world_valid).1 with
         | Ok payload => payload
         | Raise _ => []
         end),
     World (fs (export_directory (example_base / "deposit")%path world_valid).2)
           (stdout (export_directory (example_base / "deposit")%path world_valid).2)
           (trace (export_directory (example_base / "deposit")%path world_valid).2
            ++ success_events (example_base / "deposit")%path
                 (json_dumps
                    (VDict
                       (match (export_directory (example_base / "deposit")%path
                                 world_valid).1 with
                        | Ok payload => payload
                        | Raise _ => []
                        end))))).
Proof.
  apply (export_directory_idempotent (example_base / "deposit")%path world_valid).
  apply outcome_eq. vm_compute. reflexivity.
Defined.

(** X7. Exports do not disturb each other.  What the export of a directory
    returns or raises is the same after the export of any other directory
    as before it, and two exports leave the same file system in either
    order. *)
Theorem export_directory_independent (D1 D2 : Path) (w : world) :
  (export_directory D2 (export_directory D1 w).2).1 = (export_directory D2 w).1
  ∧ fs (export_directory D2 (export_directory D1 w).2).2
    = fs (export_directory D1 (export_directory D2 w).2).2.
Proof.
  assert (∀ D D', (export_directory D' (export_directory D w).2).1
                  = (export_directory D' w).1) as Hresult.
  { intros D D'. apply export_result_same_tree, export_directory_same_tree. }
  split; [apply Hresult|].
  rewrite (export_directory_fs_eq D2), (export_directory_fs_eq D1 (export_directory D2 w).2).
  rewrite !Hresult, (export_directory_fs_eq D1 w), (export_directory_fs_eq D2 w).
  destruct (export_directory D1 w).1 as [payload1|e1] eqn:H1,
           (export_directory D2 w).1 as [payload2|e2] eqn:H2; try reflexivity.
  destruct (decide (output_path D1 = output_path D2)) as [Heq|Hne].
  - apply output_path_inj in Heq as ->. rewrite H1 in H2. by injection H2 as ->.
  - by apply insert_insert_ne.
Qed.

(** X8. An export keeps the file system well formed: whatever it writes is
    a file in a directory that exists, and it makes no directory and removes
    none. *)
Theorem export_directory_preserves_wf (D : Path) (w : world) :
  wf_fs (fs w) →
  wf_fs (fs (export_directory D w).2)
  ∧ ∀ p, stat (fs (export_directory D w).2) p = Some Dir ↔ stat (fs w) p = Some Dir.
Proof.
  intros Hwf. split; [|apply export_directory_same_tree].
  destruct (export_directory D w) as [[payload|e] w'] eqn:Hrun; cbn [snd].
  - apply export_directory_ok_inv in Hrun
      as (pb & pib & _ & _ & _ & Hout & Hparent & _ & ->). cbn [fs].
    assert (parent (output_path D) ≠ output_path D) as Hne.
    { intros Heq. apply (f_equal name) in Heq.
      by rewrite parent_output_path, name_target, name_output_path in Heq. }
    intros p n Hp. destruct (decide (p = output_path D)) as [->|Hp'].
    + split; [rewrite output_path_eq; by destruct (D.2) |].
      by rewrite stat_insert_ne.
    + rewrite lookup_insert_ne in Hp by done. destruct (Hwf p n Hp) as [Hparts Hdir].
      split; [exact Hparts|]. rewrite stat_insert_ne; [exact Hdir|].
      intros Heq. by rewrite <- Heq in Hdir.
  - by apply export_directory_raise in Hrun as (t & -> & _).
Qed.

Lemma export_directory_preserves_wf_witness :
  wf_fs (fs (export_directory (example_base / "deposit")%path world_valid).2)
  ∧ ∀ p, stat (fs (export_directory (example_base / "deposit")%path world_valid).2) p
         = Some Dir
         ↔ stat (fs world_valid) p = Some Dir.
Proof.
  apply (export_directory_preserves_wf (example_base / "deposit")%path world_valid).
  apply (bool_decide_unpack (wf_fs _)). vm_compute. exact I.
Defined.

(** *** The whole run *)

Lemma exports_dec (D : Path) (w : world) : exports D w ∨ ¬ exports D w.
Proof.
  unfold exports. destruct (export_directory D w).1 as [payload|e];
    [left; by eexists | right; by intros [payload [=]]].
Qed.

Lemma not_Forall_exports (base : Path) (w : world) (names : list string) :
  ¬ Forall (λ c, exports (base / c)%path w) names →
  ∃ c, c ∈ names ∧ ¬ exports (base / c)%path w.
Proof.
  induction names as [|c names IH]; intros Hnot; [by destruct Hnot|].
  destruct (exports_dec (base / c)%path w) as [Hc|Hc].
  - destruct IH as (c' & Hin & Hfail).
    + intros Hall. apply Hnot. by constructor.
    + exists c'. split; [by apply list_elem_of_further | exact Hfail].
  - exists c. split; [apply list_elem_of_here | exact Hc].
Qed.

(** X9. A run ends with status 0 exactly when every listed circuit, taken
    alone in the file system the run starts from, can be exported; it
    ends with status 1 otherwise.  Circuits exported earlier in the run never
    make a later one fail or succeed. *)
Theorem run_succeeds_iff (a : args) (w : world) :
  ((run a w).1 = 0 ↔ ∀ c, c ∈ circuits a → exports (base_dir a / c)%path w)
  ∧ ((run a w).1 = 1 ↔ ∃ c, c ∈ circuits a ∧ ¬ exports (base_dir a / c)%path w).
Proof.
  pose proof (export_all_succeeds_iff (base_dir a) (circuits a) [] w) as Hiff.
  assert ((run a w).1 = 0 ↔ ∃ r w', export_all (base_dir a) (circuits a) [] w = (Ok r, w'))
    as Hrun.
  { unfold run, main. rewrite bind_eq.
    destruct (export_all (base_dir a) (circuits a) [] w) as [[r|e] w']; cbn [fst].
    - split; [by eexists _, _ | done].
    - split; [done | by intros (r & w'' & [=])]. }
  split; [by rewrite Hrun, Hiff, Forall_forall|].
  assert ((run a w).1 = 1 ↔ (run a w).1 ≠ 0) as ->.
  { unfold run. destruct (main a w) as [[|] ?]; cbn [fst]; split; done. }
  rewrite Hrun, Hiff. split.
  - apply not_Forall_exports.
  - intros (c & Hc & Hfail) Hall. rewrite Forall_forall in Hall. by apply Hfail, Hall.
Qed.

(** X10. After a run that ends with status 0 the files agree with the
    report.  The report printed is the text of the entries of the listed
    circuits; for every listed circuit it has one pair of hex strings under
    its name, and [target/proof.json] in the folder of the circuit holds,
    byte for byte, the text of the record made of this same pair, also when
    several names lead to the same folder. *)
Theorem report_matches_files (a : args) (w w' : world) :
  run a w = (0, w') →
  stdout w'
  = stdout w +:+ report_text (report_entries (fs w) (base_dir a) (circuits a)) +:+ "
"
  ∧ ∀ c, c ∈ circuits a →
      ∃ pb pib content,
        stat (fs w) (proof_path (base_dir a / c)%path) = Some (File pb)
        ∧ stat (fs w) (public_inputs_path (base_dir a / c)%path) = Some (File pib)
        ∧ (c, (to_hex pb, hex_windows pib))
          ∈ report_entries (fs w) (base_dir a) (circuits a)
        ∧ (∀ e, e ∈ report_entries (fs w) (base_dir a) (circuits a) →
                e.1 = c → e.2 = (to_hex pb, hex_windows pib))
        ∧ stat (fs w') (output_path (base_dir a / c)%path) = Some (File content)
        ∧ String.string_of_list_byte content = payload_text (to_hex pb) (hex_windows pib)
        ∧ length content = String.length (payload_text (to_hex pb) (hex_windows pib)).
Proof.
  intros (results & w1 & Hall & ->)%run_ok_inv.
  pose proof (export_all_ok_files _ _ _ _ _ _ Hall) as [_ Hfiles].
  pose proof (export_all_artifacts _ _ _ _ _ _ Hall) as Hartifacts.
  rewrite (export_all_report _ _ _ _ _ Hall).
  apply export_all_ok_inv in Hall as (Hout & _).
  cbn [stdout fs]. split; [by rewrite Hout|].
  intros c Hc. destruct (Hartifacts c Hc) as (pb & pib & Hpp & Hpip & Hhex).
  specialize (Hfiles c Hc). unfold output_text in Hfiles. rewrite Hhex in Hfiles.
  cbn [fst snd] in Hfiles.
  exists pb, pib, (String.list_byte_of_string (payload_text (to_hex pb) (hex_windows pib))).
  split_and!.
  - exact Hpp.
  - exact Hpip.
  - unfold report_entries. apply list_elem_of_fmap. exists c.
    split; [by rewrite Hhex | by apply first_occurrences_elem].
  - intros e He <-. unfold report_entries in He.
    apply list_elem_of_fmap in He as (c' & -> & _). cbn [fst snd]. exact Hhex.
  - exact Hfiles.
  - apply String.string_of_list_byte_of_string.
  - apply length_list_byte_of_string.
Qed.

Lemma report_matches_files_witness :
  stdout (run (Args ["deposit"; "./deposit"; "transfer"] example_base) world_valid).2
  = stdout world_valid
    +:+ report_text
          (report_entries (fs world_valid)
             (base_dir (Args ["deposit"; "./deposit"; "transfer"] example_base))
             (circuits (Args ["deposit"; "./deposit"; "transfer"] example_base)))
    +:+ "
".
Proof.
  destruct (report_matches_files (Args ["deposit"; "./deposit"; "transfer"] example_base)
              world_valid
              (run (Args ["deposit"; "./deposit"; "transfer"] example_base) world_valid).2)
    as [Hout _].
  - apply outcome_eq. vm_compute. reflexivity.
  - exact Hout.
Defined.

Lemma export_directory_effects (D : Path) (w : world) :
  stdout (export_directory D w).2 = stdout w
  ∧ ∃ t, trace (export_directory D w).2 = trace w ++ t
         ∧ Forall (λ ev, event_path ev ∈ own_paths D) t.
Proof.
  destruct (export_directory D w) as [[payload|e] w'] eqn:Hrun; cbn [snd].
  - apply export_directory_ok_inv in Hrun as (pb & pib & _ & _ & _ & _ & _ & _ & ->).
    cbn [stdout trace]. split; [reflexivity|].
    eexists. split; [reflexivity | apply success_events_own].
  - apply export_directory_raise in Hrun as (t & -> & Hown).
    split; [reflexivity | by exists t].
Qed.

Lemma export_all_effects (base : Path) (names : list string) :
  ∀ (acc : dict) (w : world),
  stdout (export_all base names acc w).2 = stdout w
  ∧ ∃ t, trace (export_all base names acc w).2 = trace w ++ t
         ∧ Forall (λ ev, ∃ c, c ∈ names ∧ event_path ev ∈ own_paths (base / c)%path) t.
Proof.
  induction names as [|c names IH]; intros acc w.
  { split; [done|]. exists []. by rewrite app_nil_r. }
  rewrite export_all_cons.
  destruct (export_directory_effects (base / c)%path w) as (Hout & t & Ht & Hown).
  assert (Forall (λ ev, ∃ c', c' ∈ c :: names
                              ∧ event_path ev ∈ own_paths (base / c')%path) t) as Hown'.
  { eapply Forall_impl; [exact Hown|]. intros ev Hev. exists c.
    split; [apply list_elem_of_here | exact Hev]. }
  destruct (export_directory (base / c)%path w) as [[payload|e] w1]; cbn [snd] in *.
  - destruct (IH (dict_set acc c (VDict payload)) w1) as (Hout' & t' & Ht' & Hown'').
    split.
    + by rewrite Hout'.
    + exists (t ++ t'). split; [by rewrite Ht', Ht, app_assoc|].
      apply Forall_app. split; [exact Hown'|].
      eapply Forall_impl; [exact Hown''|]. intros ev (c' & Hc' & Hev).
      exists c'. split; [by apply list_elem_of_further | exact Hev].
  - split; [exact Hout | by exists t].
Qed.

(** X11. Whatever its outcome, a run only calls the file system on the
    three artifact paths of the listed circuits, keeps every file that is
    not called [proof.json] and every directory, and prints nothing unless it
    ends with status 0. *)
Theorem run_confined (a : args) (w : world) :
  same_tree (fs w) (fs (run a w).2)
  ∧ (∃ t, trace (run a w).2 = trace w ++ t
          ∧ Forall (λ ev, ∃ c, c ∈ circuits a
                               ∧ event_path ev ∈ own_paths (base_dir a / c)%path) t)
  ∧ ((run a w).1 ≠ 0 → stdout (run a w).2 = stdout w).
Proof.
  destruct (export_all_effects (base_dir a) (circuits a) [] w) as (Hout & Htrace).
  pose proof (export_all_same_tree (base_dir a) (circuits a) [] w) as Htree.
  unfold run, main. rewrite bind_eq.
  destruct (export_all (base_dir a) (circuits a) [] w) as [[r|e] w1]; cbn [fst snd] in *.
  - unfold print. cbn [fst snd fs trace]. by split_and!.
  - by split_and!.
Qed.

Lemma run_confined_witness :
  stdout (run (Args ["deposit"; "transfer"; "withdraw"] example_base) world_malformed).2
  = stdout world_malformed.
Proof.
  destruct (run_confined (Args ["deposit"; "transfer"; "withdraw"] example_base)
              world_malformed) as (_ & _ & Hout).
  apply Hout. vm_compute. discriminate.
Defined.

(** X12. The exception that ends a run is the one of the first listed
    circuit that cannot be exported in the file system the run starts from:
    every circuit before it can be exported there, and exporting it there
    raises this same exception. *)
Theorem first_error_wins (a : args) (w w' : world) (e : exn) :
  main a w = (Raise e, w') →
  ∃ pre c post,
    circuits a = pre ++ c :: post
    ∧ (∀ c', c' ∈ pre → exports (base_dir a / c')%path w)
    ∧ (export_directory (base_dir a / c)%path w).1 = Raise e.
Proof.
  unfold main. rewrite bind_eq.
  destruct (export_all_cases (base_dir a) (circuits a) [] w)
    as [(r & w1 & ->)|(pre & c & post & r & w1 & e1 & w2 & Hnames & Hpre & Hc & ->)];
    [done|].
  intros [= <- <-]. exists pre, c, post. split_and!; [exact Hnames| |].
  - apply Forall_forall, (export_all_succeeds_iff (base_dir a) pre [] w). by eexists _, _.
  - pose proof (export_all_same_tree (base_dir a) pre [] w) as Htree.
    rewrite Hpre in Htree. cbn [snd] in Htree.
    by rewrite <- (export_result_same_tree _ w w1 Htree), Hc.
Qed.

Lemma first_error_wins_witness :
  ∃ pre c post,
    circuits (Args ["deposit"; "transfer"; "withdraw"] example_base) = pre ++ c :: post
    ∧ (∀ c', c' ∈ pre →
         exports (base_dir (Args ["deposit"; "transfer"; "withdraw"] example_base) / c')%path
           world_malformed)
    ∧ (export_directory
         (base_dir (Args ["deposit"; "transfer"; "withdraw"] example_base) / c)%path
         world_malformed).1
      = Raise (match (main (Args ["deposit"; "transfer"; "withdraw"] example_base)
                        world_malformed).1 with
               | Raise e => e
               | Ok _ => ValueError ""
               end).
Proof.
  apply (first_error_wins (Args ["deposit"; "transfer"; "withdraw"] example_base)
           world_malformed
           (main (Args ["deposit"; "transfer"; "withdraw"] example_base) world_malformed).2).
  apply outcome_eq. vm_compute. reflexivity.
Defined.
